(** * Elasticsearch MCP server: query and analysis engine

    A shallow embedding of the service layer (elasticsearchService.ts), the
    configuration lookup (configManager.ts) and the tool handlers
    (elasticsearch-mcp-tools/*.ts), with the properties the specification
    states about them.

    Conventions of the embedding
    - JavaScript strings are [string]; a character is a code unit below 256
      (Latin-1). Text outside that range is not modelled.
    - An object used as a dictionary ([teams], [environments], the timeframe
      table) is a [gmap] over its own keys; names inherited from
      [Object.prototype] are not modelled.
    - [Date] values are [Z] milliseconds since the epoch ([Date.getTime]).
    - JavaScript numbers that come out of a division are [JSNum]: an exact
      rational or one of the IEEE specials [Infinity], [-Infinity], [NaN].
      Counts are integers, so the rationals are exact; rounding of doubles is
      not modelled.
    - [throw new Error(msg)] is an [Error] value whose constructor names the
      throw site; an async function that throws is a rejected promise.
    - The document store is an oracle ([Store]) answering each request;
      every call made to it is recorded in a trace. *)

From Stdlib Require Import ZArith QArith Qround Qfield Lqa String Ascii List Lia Bool.
From stdpp Require Import base strings gmap list.

Open Scope string_scope.
Open Scope list_scope.
Open Scope Z_scope.

(** ** JavaScript primitives used by the source *)

Module JS.

(** Truthiness of an optional string: [undefined] and [''] are falsy. *)
Definition truthy (o : option string) : bool :=
  match o with
  | Some s => negb (String.eqb s EmptyString)
  | None => false
  end.

(** [a || b] on optional strings. *)
Definition or_else (a b : option string) : option string :=
  if truthy a then a else b.

(** [n || d] on an optional number: [undefined] and [0] are falsy. *)
Definition num_or (n : option Z) (d : Z) : Z :=
  match n with
  | Some v => if v =? 0 then d else v
  | None => d
  end.

(** [Array.prototype.slice(start, end)] *)
Definition slice {A} (start finish : Z) (l : list A) : list A :=
  let len := Z.of_nat (length l) in
  let k := if start <? 0 then Z.max (len + start) 0 else Z.min start len in
  let fin := if finish <? 0 then Z.max (len + finish) 0 else Z.min finish len in
  firstn (Z.to_nat (fin - k)) (skipn (Z.to_nat k) l).

(** [Array.prototype.indexOf] on an array of strings, [-1] when absent. *)
Fixpoint indexOf_from (x : string) (l : list string) (i : Z) : Z :=
  match l with
  | [] => -1
  | y :: l' => if String.eqb y x then i else indexOf_from x l' (i + 1)
  end.

Definition indexOf (x : string) (l : list string) : Z := indexOf_from x l 0.

(** [Array.prototype.filter] with the three-argument callback
    [(element, index, array)]; the array is closed over by [p]. *)
Fixpoint filter_from {A} (p : A -> Z -> bool) (l : list A) (i : Z) : list A :=
  match l with
  | [] => []
  | x :: l' => if p x i then x :: filter_from p l' (i + 1)
               else filter_from p l' (i + 1)
  end.

Definition filter_indexed {A} (p : A -> Z -> bool) (l : list A) : list A :=
  filter_from p l 0.

Fixpoint string_map (f : ascii -> ascii) (s : string) : string :=
  match s with
  | EmptyString => EmptyString
  | String c s' => String (f c) (string_map f s')
  end.

Definition code (c : ascii) : N := N_of_ascii c.

Definition in_range (lo hi : N) (c : ascii) : bool :=
  ((lo <=? code c) && (code c <=? hi))%N.

(** [String.prototype.toLowerCase] on one Latin-1 code unit: A-Z and the
    accented capitals U+00C0..U+00DE (without the sign U+00D7) move up by
    32. *)
Definition char_toLowerCase (c : ascii) : ascii :=
  if in_range 65 90 c
     || (in_range 192 222 c && negb (code c =? 215)%N)
  then ascii_of_N (code c + 32) else c.

Definition toLowerCase : string -> string := string_map char_toLowerCase.

(** The class [\w]: [A-Za-z0-9_]. *)
Definition is_word (c : ascii) : bool :=
  in_range 65 90 c || in_range 97 122 c || in_range 48 57 c
  || (code c =? 95)%N.

(** The class [\s] below 256: TAB, LF, VT, FF, CR, space, NBSP. *)
Definition is_space (c : ascii) : bool :=
  in_range 9 13 c || (code c =? 32)%N || (code c =? 160)%N.

(** [s.replace(/[^\w\s]/g, ' ')] *)
Definition blank_special (c : ascii) : ascii :=
  if is_word c || is_space c then c else " "%char.

Definition replace_special : string -> string := string_map blank_special.

(** [s.split(/\s+/)]: the pieces between maximal runs of white space;
    a leading or trailing run leaves an empty piece, and the empty string
    splits into one empty piece. *)
Fixpoint split_spaces (s : string) : list string :=
  match s with
  | EmptyString => [EmptyString]
  | String c s' =>
      if is_space c then
        match s' with
        | String c' _ =>
            if is_space c' then split_spaces s'
            else EmptyString :: split_spaces s'
        | EmptyString => EmptyString :: split_spaces s'
        end
      else
        match split_spaces s' with
        | t :: ts => String c t :: ts
        | [] => [String c EmptyString]
        end
  end.

(** [arr.join(' ')] *)
Fixpoint join_space (l : list string) : string :=
  match l with
  | [] => EmptyString
  | [x] => x
  | x :: l' => String.append x (String.append " " (join_space l'))
  end.

End JS.

(** ** search-exceptions-tool.ts: key-term extraction *)

Definition stopWords : gset string :=
  list_to_set
    [ "the"; "is"; "at"; "of"; "on"; "in"; "to"; "for"; "and"; "or"; "but";
      "be"; "been"; "have"; "has"; "had"; "do"; "does"; "did"; "will";
      "would"; "should"; "could"; "can"; "may"; "might"; "must"; "shall" ].

Definition keep_term (term : string) : bool :=
  (2 <? Z.of_nat (String.length term)) && negb (bool_decide (term ∈ stopWords)).

Definition first_occurrence (arr : list string) (term : string) (index : Z) : bool :=
  JS.indexOf term arr =? index.

(** The array after the first [filter]. *)
Definition candidate_terms (message : string) : list string :=
  List.filter keep_term
    (JS.split_spaces (JS.replace_special (JS.toLowerCase message))).

Definition extractKeyTerms (message : string) : list string :=
  let arr := candidate_terms message in
  JS.slice 0 5 (JS.filter_indexed (first_occurrence arr) arr).

(** ** JavaScript numbers produced by the trend arithmetic *)

Inductive JSNum : Type :=
| Fin (q : Q)
| PosInf
| NegInf
| NaN.

Module Num.

Definition of_Z (z : Z) : JSNum := Fin (inject_Z z).

Definition Qlt_bool (x y : Q) : bool := negb (Qle_bool y x).

Definition neg (a : JSNum) : JSNum :=
  match a with
  | Fin x => Fin (- x)%Q
  | PosInf => NegInf
  | NegInf => PosInf
  | NaN => NaN
  end.

(** [a - b] *)
Definition sub (a b : JSNum) : JSNum :=
  match a, b with
  | NaN, _ | _, NaN => NaN
  | Fin x, Fin y => Fin (x - y)%Q
  | PosInf, PosInf | NegInf, NegInf => NaN
  | PosInf, _ | _, NegInf => PosInf
  | NegInf, _ | _, PosInf => NegInf
  end.

(** The infinity with the sign of [x], [NaN] for zero. *)
Definition signed_inf (x : Q) : JSNum :=
  match (x ?= 0)%Q with
  | Gt => PosInf
  | Lt => NegInf
  | Eq => NaN
  end.

(** [a / b]. A zero divisor is the positive zero (the sums and lengths of
    the source never produce the negative one): a positive dividend gives
    [Infinity], a negative one [-Infinity], and [0 / 0] is [NaN]. *)
Definition div (a b : JSNum) : JSNum :=
  match a, b with
  | NaN, _ | _, NaN => NaN
  | Fin x, Fin y => if Qeq_bool y 0%Q then signed_inf x else Fin (x / y)%Q
  | Fin _, _ => Fin 0%Q
  | PosInf, Fin y => if Qlt_bool y 0%Q then NegInf else PosInf
  | NegInf, Fin y => if Qlt_bool y 0%Q then PosInf else NegInf
  | _, _ => NaN
  end.

(** [a * b] *)
Definition mul (a b : JSNum) : JSNum :=
  match a, b with
  | NaN, _ | _, NaN => NaN
  | Fin x, Fin y => Fin (x * y)%Q
  | Fin x, PosInf | PosInf, Fin x => signed_inf x
  | Fin x, NegInf | NegInf, Fin x => neg (signed_inf x)
  | PosInf, PosInf | NegInf, NegInf => PosInf
  | PosInf, NegInf | NegInf, PosInf => NegInf
  end.

(** [a < b]; every comparison with [NaN] is false. *)
Definition lt (a b : JSNum) : bool :=
  match a, b with
  | NaN, _ | _, NaN => false
  | Fin x, Fin y => Qlt_bool x y
  | NegInf, NegInf | PosInf, _ => false
  | NegInf, _ => true
  | Fin _, PosInf => true
  | Fin _, NegInf => false
  end.

(** [a > b] *)
Definition gt (a b : JSNum) : bool := lt b a.

(** [Math.round]: the nearest integer, a tie going up. *)
Definition round (a : JSNum) : JSNum :=
  match a with
  | Fin x => of_Z (Qfloor (x + (1 # 2))%Q)
  | other => other
  end.

End Num.

(** ** date-fns *)

Module DateFns.

Definition MS_PER_DAY : Z := 86400000.

(** date-fns' internal [toInteger]: truncation toward zero. *)
Definition toInteger (q : Q) : Z :=
  if Num.Qlt_bool q 0%Q then Qceiling q else Qfloor q.

(** Modelled from the library the source imports (date-fns 2.x, the
    version package.json asks for), which is not part of the repository:
    [subDays(date, amount)] truncates [amount] to an integer and moves the
    date back by that many calendar days; a day is 86 400 000 ms (no
    daylight-saving change falls in between). *)
Definition subDays (date : Z) (amount : Q) : Z :=
  date - toInteger amount * MS_PER_DAY.

End DateFns.

(** ** types.ts *)

Record ElasticsearchEnvironmentConfig : Type := {
  node : string;
  apiKey : option string;
  username : option string;
  password : option string;
  maxRetries : option Z;
  requestTimeout : option Z
}.

Record IndexPatterns : Type := {
  exceptions : list string;
  applications : list string;
  logs : option (list string)
}.

Record TeamConfig : Type := {
  teamId : string;
  teamName : string;
  defaultEnvironment : option string;
  environments : gmap string ElasticsearchEnvironmentConfig;
  indexPatterns : IndexPatterns;
  maxSearchResults : option Z;
  allowedOperations : option (list string)
}.

(** [MultiTeamConfig.teams]; the [server] block plays no part here. *)
Record MultiTeamConfig : Type := {
  teams : gmap string TeamConfig
}.

Record TimeRange : Type := {
  tr_start : string;
  tr_end : string
}.

Record SearchFilters : Type := {
  sf_environment : option string;
  sf_timeRange : option TimeRange;
  sf_timeframe : option string;
  sf_severity : option string;
  sf_service : option string;
  sf_message : option string;
  sf_limit : option Z;
  sf_sortByFrequency : option bool
}.

(** [filters = {}] *)
Definition no_filters : SearchFilters :=
  {| sf_environment := None; sf_timeRange := None; sf_timeframe := None;
     sf_severity := None; sf_service := None; sf_message := None;
     sf_limit := None; sf_sortByFrequency := None |}.

(** The [_source] of a hit: the fields the service reads. *)
Record Source : Type := {
  src_timestamp : option string;
  src_message : option string;
  src_error_message : option string;
  src_exception_message : option string;
  src_log_message : option string;
  src_log_level : option string;
  src_service_name : option string;
  src_environment : option string;
  src_error_stack_trace : option string;
  src_exception_stacktrace : option string;
  src_tags : option (list string)
}.

Record Hit : Type := {
  hit_id : string;
  hit_index : string;
  hit_source : Source
}.

Record ElasticsearchSearchResult : Type := {
  id : string;
  index : string;
  timestamp : option string;
  message : option string;
  level : option string;
  service : option string;
  environment : option string;
  stack_trace : option string;
  tags : option (list string);
  fields : Source
}.

Record TopException : Type := {
  te_message : string;
  te_count : Z;
  te_firstSeen : string;
  te_lastSeen : string;
  te_affectedServices : list string
}.

Record ExceptionAnalysis : Type := {
  totalCount : Z;
  uniqueExceptions : Z;
  topExceptions : list TopException;
  timeDistribution : list (string * Z)
}.

Record SpecificExceptionAnalysis : Type := {
  exc_message : option string;
  exc_service : option string;
  exc_stackTrace : option string;
  frequency_total : Z;
  frequency_trend : string;
  affectedServices : list string;
  possibleCauses : list string;
  suggestedSolutions : list string
}.

Record ServiceExceptionTrend : Type := {
  st_service : string;
  st_exceptionCount : Z;
  st_trend : string;
  st_percentageChange : JSNum;
  st_topExceptions : list (string * Z)
}.

(** ** The store protocol: requests, responses and the client *)

(** A bound of the [@timestamp] range: an ISO string of the caller passed on
    as it is, or [format(date, "yyyy-MM-dd'T'HH:mm:ss.SSSxxx")]. *)
Inductive TimeBound : Type :=
| Verbatim (iso : string)
| Formatted (date : Z).

Inductive Clause : Type :=
| RangeTimestamp (gte : TimeBound) (lte : option TimeBound)
| MultiMatch (query : string) (match_fields : list string) (match_type : string)
| Term (field value : string)
  (** [bool.should] over [exists error.message], [exists exception.message]
      and [term log.level ERROR] with [minimum_should_match: 1] *)
| ErrorMarker.

Record BoolQuery : Type := {
  must : list Clause;
  filter : list Clause
}.

(** The [aggs] document of a request, by the operation that sends it. *)
Inductive Aggs : Type :=
| NoAggs
| ExceptionAnalysisAggs
| FrequentExceptionsAggs (size : Z)
| SpecificExceptionAggs
| ServiceTrendAggs (timeRangeStart midPoint now : Z).

Record SearchParams : Type := {
  sp_index : list string;
  sp_query : BoolQuery;
  sp_sort_newest_first : bool;
  sp_size : Z;
  sp_source : list string;
  sp_aggs : Aggs
}.

Record TopExceptionBucket : Type := {
  teb_key : string;
  teb_doc_count : Z;
  teb_first_seen : string;
  teb_last_seen : string;
  teb_affected_services : list string
}.

Record HistogramBucket : Type := {
  key_as_string : string;
  doc_count : Z
}.

Record ServiceBucket : Type := {
  sb_key : string;
  sb_total_exceptions : Z;
  sb_first_half : Z;
  sb_second_half : Z;
  sb_top_exceptions : list (string * Z)
}.

Record FrequentBucket : Type := {
  fb_key : string;
  fb_doc_count : Z;
  fb_latest_occurrence : list Hit
}.

Record Aggregations : Type := {
  agg_total_count : Z;
  agg_unique_exceptions : Z;
  agg_top_exceptions : list TopExceptionBucket;
  agg_time_distribution : list HistogramBucket;
  agg_affected_services : list string;
  agg_services : option (list ServiceBucket);
  agg_frequent_exceptions : option (list FrequentBucket)
}.

(** [response.hits.total]: a number, or an object with an optional
    [value], depending on the version of the store. *)
Inductive HitsTotal : Type :=
| TotalNumber (n : Z)
| TotalObject (value : option Z)
| TotalMissing.

Record SearchResponse : Type := {
  hits : list Hit;
  hits_total : HitsTotal;
  aggregations : Aggregations
}.

Inductive Auth : Type :=
| ApiKeyAuth (key : string)
| BasicAuth (user pass : string).

Record ClientOptions : Type := {
  co_node : string;
  co_maxRetries : Z;
  co_requestTimeout : Z;
  co_auth : option Auth
}.

(** The cluster behind a client, as an oracle: the answer to a search or a
    ping sent through the client cached under a key, or the message of the
    error the client raises. *)
Record Store : Type := {
  es_search : string -> SearchParams -> string + SearchResponse;
  es_ping : string -> string + bool
}.

Inductive StoreCall : Type :=
| SearchCall (clientKey : string) (params : SearchParams)
| PingCall (clientKey : string).

(** ** Errors and the effect of a request *)

(** Every [throw] of the source raises a plain [Error]; the constructor
    names the throw site and keeps the values interpolated in its message. *)
Inductive Error : Type :=
| TeamNotFound (team : string)
| NoEnvironment (team : string)
| EnvironmentNotFound (env team : string)
| OperationNotAllowed (operation team : string)
| NoExceptionsFound (exceptionMessage : string)
| StoreFailure (msg : string)
| Failed (action : string) (cause : Error).

(** What the specification calls a configuration error. *)
Definition isConfigurationError (e : Error) : bool :=
  match e with
  | TeamNotFound _ | NoEnvironment _ | EnvironmentNotFound _ _ => true
  | _ => false
  end.

Definition isNotPermittedError (e : Error) : bool :=
  match e with
  | OperationNotAllowed _ _ => true
  | _ => false
  end.

(** The state of one [ElasticsearchService]: its client cache, and the
    calls sent to the store so far (oldest first). *)
Record World : Type := {
  clients : gmap string ClientOptions;
  calls : list StoreCall
}.

Definition new_service : World := {| clients := ∅; calls := [] |}.

(** A computation that reads and updates the service state and either
    returns or throws. *)
Definition M (A : Type) : Type := World -> (Error + A) * World.

#[export] Instance M_ret : MRet M := fun A (a : A) w => (inr a, w).

#[export] Instance M_bind : MBind M := fun A B (k : A -> M B) (m : M A) w =>
  match m w with
  | (inr a, w') => k a w'
  | (inl e, w') => (inl e, w')
  end.

Definition throw {A} (e : Error) : M A := fun w => (inl e, w).

(** [try { body } catch (error) { handler }] *)
Definition try_catch {A} (body : M A) (handler : Error -> M A) : M A := fun w =>
  match body w with
  | (inl e, w') => handler e w'
  | other => other
  end.

Definition lift {A} (r : Error + A) : M A := fun w => (r, w).

Inductive Settled (A : Type) : Type :=
| Fulfilled (value : A)
| Rejected (reason : Error).
Arguments Fulfilled {A} value.
Arguments Rejected {A} reason.

(** [Promise.allSettled]: the promises are started in order (each async
    call runs up to its request to the store when it is created), all are
    awaited, and none of their rejections is raised. *)
Fixpoint allSettled {A} (promises : list (M A)) : M (list (Settled A)) :=
  match promises with
  | [] => mret []
  | p :: rest => fun w =>
      let '(r, w') := p w in
      let settled := match r with inr v => Fulfilled v | inl e => Rejected e end in
      match allSettled rest w' with
      | (inr others, w'') => (inr (settled :: others), w'')
      | (inl e, w'') => (inl e, w'')
      end
  end.

(** A JavaScript [Map] in insertion order. *)
Module JSMap.

Definition t (V : Type) : Type := list (string * V).

Definition empty {V} : t V := [].

Fixpoint has {V} (m : t V) (k : string) : bool :=
  match m with
  | [] => false
  | (k', _) :: m' => String.eqb k' k || has m' k
  end.

(** [set] keeps the position of a key already present and appends a new
    one. *)
Fixpoint set {V} (m : t V) (k : string) (v : V) : t V :=
  match m with
  | [] => [(k, v)]
  | (k', v') :: m' =>
      if String.eqb k' k then (k', v) :: m' else (k', v') :: set m' k v
  end.

(** [Array.from(m.values())] *)
Definition values {V} (m : t V) : list V := List.map snd m.

End JSMap.

(** ** configManager.ts *)

(** [ConfigManager.getTeamConfig] over the loaded configuration. *)
Definition getTeamConfig (config : MultiTeamConfig) (team : string)
  : Error + TeamConfig :=
  match teams config !! team with
  | Some teamConfig => inr teamConfig
  | None => inl (TeamNotFound team)
  end.

(** ** elasticsearchService.ts *)

Definition dquote : string := String (ascii_of_N 34) EmptyString.

Definition exception_source_fields : list string :=
  [ "@timestamp"; "message"; "log.level"; "service.name"; "error.message";
    "error.stack_trace"; "exception.message"; "exception.stacktrace"; "tags";
    "environment" ].

Definition log_source_fields : list string :=
  [ "@timestamp"; "message"; "log.level"; "service.name"; "tags";
    "environment" ].

Definition specific_source_fields : list string :=
  [ "@timestamp"; "error.message"; "exception.message"; "service.name";
    "error.stack_trace"; "exception.stacktrace"; "message" ].

(** The literal [{'1h': 1, '6h': 6, '12h': 12, '24h': 24, '7d': 168}]. *)
Definition timeframe_table : gmap string Z :=
  list_to_map [ ("1h", 1); ("6h", 6); ("12h", 12); ("24h", 24); ("7d", 168) ].

(** [{...}[timeframe] || 24] *)
Definition timeRangeHours (timeframe : string) : Z :=
  JS.num_or (timeframe_table !! timeframe) 24.

(** [new Date(now.getTime() - timeRangeHours * 60 * 60 * 1000)] *)
Definition timeRangeStart (now : Z) (timeframe : string) : Z :=
  now - timeRangeHours timeframe * 60 * 60 * 1000.

(** The range clause the timeframe-driven operations put in [must]. *)
Definition timeframe_range (now : Z) (timeframe : string) : Clause :=
  RangeTimestamp (Formatted (timeRangeStart now timeframe))
                 (Some (Formatted now)).

Definition getClientKey (team env : string) : string :=
  String.append team (String.append ":" env).

Definition createClient (config : ElasticsearchEnvironmentConfig) : ClientOptions :=
  {| co_node := node config;
     co_maxRetries := JS.num_or (maxRetries config) 3;
     co_requestTimeout := JS.num_or (requestTimeout config) 30000;
     co_auth :=
       if JS.truthy (apiKey config) then ApiKeyAuth <$> apiKey config
       else if JS.truthy (username config) && JS.truthy (password config) then
         match username config, password config with
         | Some user, Some pass => Some (BasicAuth user pass)
         | _, _ => None
         end
       else None |}.

(** [timeDistribution.slice(k)] *)
Definition slice_from {A} (k : Z) (l : list A) : list A :=
  JS.slice k (Z.of_nat (length l)) l.

Definition sum_doc_count (buckets : list HistogramBucket) : Z :=
  fold_left (fun sum bucket => sum + doc_count bucket) buckets 0.

(** [buckets.reduce((sum, bucket) => sum + bucket.doc_count, 0) / buckets.length] *)
Definition average (buckets : list HistogramBucket) : JSNum :=
  Num.div (Num.of_Z (sum_doc_count buckets))
          (Num.of_Z (Z.of_nat (length buckets))).

(** The two comparisons that close both trend computations. *)
Definition classify (change : JSNum) : string :=
  if Num.gt change (Num.of_Z 10) then "increasing"
  else if Num.lt change (Num.of_Z (-10)) then "decreasing"
  else "stable".

(** [ElasticsearchService.determineTrend] *)
Definition determineTrend (timeDistribution : list HistogramBucket) : string :=
  let len := Z.of_nat (length timeDistribution) in
  if len <? 2 then "stable"
  else
    let firstHalf := JS.slice 0 (len / 2) timeDistribution in
    let secondHalf := slice_from (len / 2) timeDistribution in
    let firstHalfAvg := average firstHalf in
    let secondHalfAvg := average secondHalf in
    let change :=
      Num.mul (Num.div (Num.sub secondHalfAvg firstHalfAvg) firstHalfAvg)
              (Num.of_Z 100) in
    classify change.

(** The [percentageChange] of one service bucket in
    [getServiceExceptionTrends]. *)
Definition percentageChange (firstHalfCount secondHalfCount : Z) : JSNum :=
  if 0 <? firstHalfCount then
    Num.mul (Num.div (Num.sub (Num.of_Z secondHalfCount) (Num.of_Z firstHalfCount))
                     (Num.of_Z firstHalfCount))
            (Num.of_Z 100)
  else Num.of_Z 0.

(** The body of the loop over [aggs.services.buckets]. *)
Definition service_trend (bucket : ServiceBucket) : ServiceExceptionTrend :=
  let firstHalfCount := sb_first_half bucket in
  let secondHalfCount := sb_second_half bucket in
  let change := percentageChange firstHalfCount secondHalfCount in
  {| st_service := sb_key bucket;
     st_exceptionCount := sb_total_exceptions bucket;
     st_trend := classify change;
     st_percentageChange := Num.round change;
     st_topExceptions := sb_top_exceptions bucket |}.

(** [haystack.includes(needle)] *)
Fixpoint includes (needle haystack : string) : bool :=
  String.prefix needle haystack
  || match haystack with
     | EmptyString => false
     | String _ rest => includes needle rest
     end.

Definition mentions (exceptionMessage word : string) : bool :=
  includes word (JS.toLowerCase exceptionMessage).

(** [ElasticsearchService.generatePossibleCauses] *)
Definition generatePossibleCauses (exceptionMessage : string) : list string :=
  let causes :=
   ((if mentions exceptionMessage "null"
     then [ "Null pointer or undefined variable access";
            "Missing null checks in code" ] else [])
    ++ (if mentions exceptionMessage "connection" || mentions exceptionMessage "network"
        then [ "Network connectivity issues";
               "Database or external service unavailable";
               "Timeout configuration too strict" ] else [])
    ++ (if mentions exceptionMessage "memory" || mentions exceptionMessage "heap"
        then [ "Memory leak or insufficient heap size";
               "Large data processing without proper cleanup" ] else [])
    ++ (if mentions exceptionMessage "permission" || mentions exceptionMessage "access"
        then [ "Insufficient permissions or access rights";
               "Authentication or authorization failure" ] else []))%list in
  match causes with
  | [] => [ "Code logic error or unexpected input";
            "External dependency failure";
            "Configuration mismatch" ]
  | _ => causes
  end.

(** [ElasticsearchService.generateSuggestedSolutions] *)
Definition generateSuggestedSolutions (exceptionMessage : string) : list string :=
  let solutions :=
   ((if mentions exceptionMessage "null"
     then [ "Add null checks before accessing variables or objects";
            "Use optional chaining or safe navigation operators";
            "Initialize variables with default values" ] else [])
    ++ (if mentions exceptionMessage "connection" || mentions exceptionMessage "network"
        then [ "Implement retry mechanisms with exponential backoff";
               "Add circuit breaker pattern for external services";
               "Increase timeout configurations if appropriate";
               "Add proper error handling for network failures" ] else [])
    ++ (if mentions exceptionMessage "memory" || mentions exceptionMessage "heap"
        then [ "Increase JVM heap size or application memory limits";
               "Implement proper resource cleanup (close streams, connections)";
               "Optimize data processing to handle smaller chunks";
               "Profile application for memory leaks" ] else [])
    ++ (if mentions exceptionMessage "permission" || mentions exceptionMessage "access"
        then [ "Check and update file or resource permissions";
               "Verify authentication credentials and tokens";
               "Review authorization rules and policies" ] else []))%list in
  match solutions with
  | [] => [ "Add comprehensive logging around the error location";
            "Implement proper input validation and sanitization";
            "Add unit tests to cover edge cases";
            "Review and update documentation" ]
  | _ => solutions
  end.


(** [hit => ({...})] of [searchExceptions] *)
Definition exception_of_hit (hit : Hit) : ElasticsearchSearchResult :=
  let source := hit_source hit in
  {| id := hit_id hit;
     index := hit_index hit;
     timestamp := src_timestamp source;
     message := JS.or_else (src_message source)
                  (JS.or_else (src_error_message source)
                              (src_exception_message source));
     level := src_log_level source;
     service := src_service_name source;
     environment := src_environment source;
     stack_trace := JS.or_else (src_error_stack_trace source)
                               (src_exception_stacktrace source);
     tags := src_tags source;
     fields := source |}.

(** [hit => ({...})] of [searchLogs] *)
Definition log_of_hit (hit : Hit) : ElasticsearchSearchResult :=
  let source := hit_source hit in
  {| id := hit_id hit;
     index := hit_index hit;
     timestamp := src_timestamp source;
     message := JS.or_else (src_message source) (src_log_message source);
     level := src_log_level source;
     service := src_service_name source;
     environment := src_environment source;
     stack_trace := None;
     tags := src_tags source;
     fields := source |}.

(** The service-name filter every operation pushes when [filters.service]
    is truthy. *)
Definition service_filter (filters : SearchFilters) : list Clause :=
  if JS.truthy (sf_service filters)
  then [Term "service.name" (default EmptyString (sf_service filters))] else [].

Section Service.

(** The configuration the [ConfigManager] of the request has loaded, the
    cluster, and the clock ([new Date()]) of the request. *)
Variable configManager : MultiTeamConfig.
Variable store : Store.
Variable now : Z.

(** [ElasticsearchService.getClient]; the client is named by its key. *)
Definition getClient (team : string) (env : option string) : M string :=
  teamConfig ← lift (getTeamConfig configManager team);
  let env := JS.or_else env (defaultEnvironment teamConfig) in
  if negb (JS.truthy env) then throw (NoEnvironment team)
  else
    let env := default EmptyString env in
    match environments teamConfig !! env with
    | None => throw (EnvironmentNotFound env team)
    | Some envConfig =>
        let clientKey := getClientKey team env in
        fun w =>
          match clients w !! clientKey with
          | Some _ => (inr clientKey, w)
          | None =>
              (inr clientKey,
               {| clients := <[clientKey := createClient envConfig]> (clients w);
                  calls := calls w |})
          end
    end.

(** [await client.search(searchParams)] *)
Definition client_search (clientKey : string) (params : SearchParams)
  : M SearchResponse := fun w =>
  let w' := {| clients := clients w;
               calls := calls w ++ [SearchCall clientKey params] |} in
  match es_search store clientKey params with
  | inr response => (inr response, w')
  | inl msg => (inl (StoreFailure msg), w')
  end.

(** [await client.ping()] *)
Definition client_ping (clientKey : string) : M bool := fun w =>
  let w' := {| clients := clients w;
               calls := calls w ++ [PingCall clientKey] |} in
  match es_ping store clientKey with
  | inr response => (inr response, w')
  | inl msg => (inl (StoreFailure msg), w')
  end.

(** The time clause of the three filter-driven operations: the caller's
    range as it is, else from [subDays(new Date(), days)] on, open-ended. *)
Definition time_filter (filters : SearchFilters) (days : Q) : Clause :=
  match sf_timeRange filters with
  | Some range =>
      RangeTimestamp (Verbatim (tr_start range)) (Some (Verbatim (tr_end range)))
  | None => RangeTimestamp (Formatted (DateFns.subDays now days)) None
  end.

Definition searchExceptions_query (filters : SearchFilters) : BoolQuery :=
  {| must :=
       if JS.truthy (sf_message filters)
       then [MultiMatch (default EmptyString (sf_message filters))
               ["message"; "error.message"; "exception.message"] "best_fields"]
       else [];
     filter :=
       ([time_filter filters 1]
        ++ (if JS.truthy (sf_severity filters)
            then [Term "log.level" (JS.toLowerCase (default EmptyString (sf_severity filters)))]
            else [])
        ++ service_filter filters)%list |}.

Definition searchExceptions_params (teamConfig : TeamConfig)
    (filters : SearchFilters) : SearchParams :=
  {| sp_index := exceptions (indexPatterns teamConfig);
     sp_query := searchExceptions_query filters;
     sp_sort_newest_first := true;
     sp_size := JS.num_or (maxSearchResults teamConfig) 50;
     sp_source := exception_source_fields;
     sp_aggs := NoAggs |}.

(** [ElasticsearchService.searchExceptions] *)
Definition searchExceptions (team : string) (filters : SearchFilters)
  : M (list ElasticsearchSearchResult) :=
  teamConfig ← lift (getTeamConfig configManager team);
  client ← getClient team (sf_environment filters);
  let searchParams := searchExceptions_params teamConfig filters in
  try_catch
    (response ← client_search client searchParams;
     mret (List.map exception_of_hit (hits response)))
    (fun error => throw (Failed "search exceptions" error)).

Definition analyzeExceptions_params (teamConfig : TeamConfig)
    (filters : SearchFilters) : SearchParams :=
  {| sp_index := exceptions (indexPatterns teamConfig);
     sp_query := {| must := []; filter := [time_filter filters 7] |};
     sp_sort_newest_first := false;
     sp_size := 0;
     sp_source := [];
     sp_aggs := ExceptionAnalysisAggs |}.

(** [ElasticsearchService.analyzeExceptions] *)
Definition analyzeExceptions (team : string) (filters : SearchFilters)
  : M ExceptionAnalysis :=
  teamConfig ← lift (getTeamConfig configManager team);
  client ← getClient team (sf_environment filters);
  let searchParams := analyzeExceptions_params teamConfig filters in
  try_catch
    (response ← client_search client searchParams;
     let aggs := aggregations response in
     mret {| totalCount := agg_total_count aggs;
             uniqueExceptions := agg_unique_exceptions aggs;
             topExceptions :=
               List.map (fun bucket =>
                 {| te_message := teb_key bucket;
                    te_count := teb_doc_count bucket;
                    te_firstSeen := teb_first_seen bucket;
                    te_lastSeen := teb_last_seen bucket;
                    te_affectedServices := teb_affected_services bucket |})
                 (agg_top_exceptions aggs);
             timeDistribution :=
               List.map (fun bucket => (key_as_string bucket, doc_count bucket))
                 (agg_time_distribution aggs) |})
    (fun error => throw (Failed "analyze exceptions" error)).

Definition searchLogs_query (filters : SearchFilters) : BoolQuery :=
  {| must :=
       if JS.truthy (sf_message filters)
       then [MultiMatch (default EmptyString (sf_message filters))
               ["message"; "log.message"] "best_fields"]
       else [];
     filter := ([time_filter filters (4 # 100)] ++ service_filter filters)%list |}.

Definition searchLogs_params (teamConfig : TeamConfig)
    (filters : SearchFilters) : SearchParams :=
  {| sp_index :=
       (applications (indexPatterns teamConfig)
        ++ default [] (logs (indexPatterns teamConfig)))%list;
     sp_query := searchLogs_query filters;
     sp_sort_newest_first := true;
     sp_size := JS.num_or (maxSearchResults teamConfig) 50;
     sp_source := log_source_fields;
     sp_aggs := NoAggs |}.

(** [ElasticsearchService.searchLogs] *)
Definition searchLogs (team : string) (filters : SearchFilters)
  : M (list ElasticsearchSearchResult) :=
  teamConfig ← lift (getTeamConfig configManager team);
  client ← getClient team (sf_environment filters);
  let searchParams := searchLogs_params teamConfig filters in
  try_catch
    (response ← client_search client searchParams;
     mret (List.map log_of_hit (hits response)))
    (fun error => throw (Failed "search logs" error)).

(** [ElasticsearchService.testConnection] *)
Definition testConnection (team : string) (env : option string) : M bool :=
  try_catch
    (client ← getClient team env;
     response ← client_ping client;
     mret response)
    (fun error => mret false).

End Service.

Section TimeframeOperations.

Variable configManager : MultiTeamConfig.
Variable store : Store.
Variable now : Z.




Definition analyzeSpecificException_params (teamConfig : TeamConfig)
    (exceptionMessage timeframe : string) : SearchParams :=
  {| sp_index := exceptions (indexPatterns teamConfig);
     sp_query :=
       {| must := [ timeframe_range now timeframe;
                    MultiMatch exceptionMessage
                      ["error.message"; "exception.message"; "message"] "phrase" ];
          filter := [] |};
     sp_sort_newest_first := true;
     sp_size := 100;
     sp_source := specific_source_fields;
     sp_aggs := SpecificExceptionAggs |}.

(** [typeof total === 'number' ? total : total?.value || 0] *)
Definition totalHits (total : HitsTotal) : Z :=
  match total with
  | TotalNumber n => n
  | TotalObject value => JS.num_or value 0
  | TotalMissing => 0
  end.

(** [ElasticsearchService.analyzeSpecificException]; the "nothing found"
    error is thrown inside the [try] and leaves wrapped like any other. *)
Definition analyzeSpecificException (team exceptionMessage : string)
    (timeframe : option string) (filters : SearchFilters)
  : M SpecificExceptionAnalysis :=
  let timeframe := default "24h" timeframe in
  teamConfig ← lift (getTeamConfig configManager team);
  client ← getClient configManager team (sf_environment filters);
  let searchParams :=
    analyzeSpecificException_params teamConfig exceptionMessage timeframe in
  try_catch
    (response ← client_search store client searchParams;
     let aggs := aggregations response in
     match hits response with
     | [] => throw (NoExceptionsFound exceptionMessage)
     | latest :: _ =>
         let latestException := hit_source latest in
         let timeDistribution := agg_time_distribution aggs in
         let trend :=
           if 1 <? Z.of_nat (length timeDistribution)
           then determineTrend timeDistribution else "stable" in
         mret {| exc_message :=
                   JS.or_else (src_error_message latestException)
                     (JS.or_else (src_exception_message latestException)
                        (JS.or_else (src_message latestException)
                                    (Some exceptionMessage)));
                 exc_service := JS.or_else (src_service_name latestException)
                                           (Some "unknown");
                 exc_stackTrace :=
                   JS.or_else (src_error_stack_trace latestException)
                              (src_exception_stacktrace latestException);
                 frequency_total := totalHits (hits_total response);
                 frequency_trend := trend;
                 affectedServices := agg_affected_services aggs;
                 possibleCauses := generatePossibleCauses exceptionMessage;
                 suggestedSolutions := generateSuggestedSolutions exceptionMessage |}
     end)
    (fun error => throw (Failed "analyze specific exception" error)).

(** [timeRangeStart + (now - timeRangeStart) / 2]; the window is a whole
    number of hours, so the half is exact. *)
Definition midPoint (timeframe : string) : Z :=
  timeRangeStart now timeframe + (now - timeRangeStart now timeframe) / 2.

Definition getServiceExceptionTrends_params (teamConfig : TeamConfig)
    (timeframe : string) : SearchParams :=
  {| sp_index := exceptions (indexPatterns teamConfig);
     sp_query := {| must := [timeframe_range now timeframe; ErrorMarker];
                    filter := [] |};
     sp_sort_newest_first := false;
     sp_size := 0;
     sp_source := [];
     sp_aggs := ServiceTrendAggs (timeRangeStart now timeframe)
                                 (midPoint timeframe) now |}.

(** [ElasticsearchService.getServiceExceptionTrends] *)
Definition getServiceExceptionTrends (team : string) (timeframe : option string)
    (filters : SearchFilters) : M (list ServiceExceptionTrend) :=
  let timeframe := default "24h" timeframe in
  teamConfig ← lift (getTeamConfig configManager team);
  client ← getClient configManager team (sf_environment filters);
  let searchParams := getServiceExceptionTrends_params teamConfig timeframe in
  try_catch
    (response ← client_search store client searchParams;
     mret (match agg_services (aggregations response) with
           | Some buckets => List.map service_trend buckets
           | None => []
           end))
    (fun error => throw (Failed "get service exception trends" error)).

End TimeframeOperations.

(** ** elasticsearch-mcp-tools: the handlers *)

(** What a handler returns: the JSON of [success: true], or the error of
    its [catch] block ([isError: true]). *)
Inductive ToolResult (A : Type) : Type :=
| ToolSuccess (payload : A)
| ToolError (error : Error).
Arguments ToolSuccess {A} payload.
Arguments ToolError {A} error.

Definition tool_error {A} (r : ToolResult A) : option Error :=
  match r with
  | ToolSuccess _ => None
  | ToolError e => Some e
  end.

(** The [try { ... } catch] of a handler around its body, run on the
    service the handler has just constructed; the calls the request made to
    the store come with the result. *)
Definition respond {A} (body : M A) : ToolResult A * list StoreCall :=
  let '(r, w) := body new_service in
  (match r with
   | inr payload => ToolSuccess payload
   | inl e => ToolError e
   end, calls w).

(** [arr.includes(x)] *)
Definition array_includes (arr : list string) (x : string) : bool :=
  existsb (fun y => String.eqb y x) arr.

(** [teamConfig.allowedOperations && !teamConfig.allowedOperations.includes(op)] *)
Definition operation_blocked (teamConfig : TeamConfig) (operation : string) : bool :=
  match allowedOperations teamConfig with
  | Some allowed => negb (array_includes allowed operation)
  | None => false
  end.

Definition check_allowed (teamConfig : TeamConfig) (operation team : string) : M unit :=
  if operation_blocked teamConfig operation
  then throw (OperationNotAllowed operation team)
  else mret tt.

(** *** search-exceptions-tool.ts *)

(** The arguments as the caller sends them. *)
Record SearchExceptionsInput : Type := {
  in_environment : option string;
  in_message : option string;
  in_service : option string;
  in_severity : option string;
  in_timeRange : option TimeRange;
  in_query : option string;
  in_timeframe : option string;
  in_limit : option Z;
  in_sortByFrequency : option bool;
  in_smartSearch : option bool
}.

(** [z.infer<typeof searchExceptionsSchema>] *)
Record SearchExceptionsParams : Type := {
  p_environment : option string;
  p_message : option string;
  p_service : option string;
  p_severity : option string;
  p_timeRange : option TimeRange;
  p_query : option string;
  p_timeframe : option string;
  p_limit : Z;
  p_sortByFrequency : bool;
  p_smartSearch : bool
}.

Definition timeframe_enum : list string := ["1h"; "6h"; "12h"; "24h"; "7d"].

(** [searchExceptionsSchema]: the defaults filled in, [None] when the
    validation of [limit] or [timeframe] rejects the input. *)
Definition searchExceptionsSchema (input : SearchExceptionsInput)
  : option SearchExceptionsParams :=
  let limit := default 20 (in_limit input) in
  let timeframe_ok :=
    match in_timeframe input with
    | Some t => array_includes timeframe_enum t
    | None => true
    end in
  if (1 <=? limit) && (limit <=? 100) && timeframe_ok then
    Some {| p_environment := in_environment input;
            p_message := in_message input;
            p_service := in_service input;
            p_severity := in_severity input;
            p_timeRange := in_timeRange input;
            p_query := in_query input;
            p_timeframe := in_timeframe input;
            p_limit := limit;
            p_sortByFrequency := default false (in_sortByFrequency input);
            p_smartSearch := default true (in_smartSearch input) |}
  else None.

Record SearchPayload : Type := {
  out_teamId : string;
  out_environment : option string;
  out_totalResults : Z;
  out_results : list ElasticsearchSearchResult
}.

(** The filters a handler call passes on: the fields of [params] a
    [SearchFilters] has, with the given [message]. *)
Definition filters_with_message (params : SearchExceptionsParams)
    (msg : option string) : SearchFilters :=
  {| sf_environment := p_environment params;
     sf_timeRange := p_timeRange params;
     sf_timeframe := p_timeframe params;
     sf_severity := p_severity params;
     sf_service := p_service params;
     sf_message := msg;
     sf_limit := Some (p_limit params);
     sf_sortByFrequency := Some (p_sortByFrequency params) |}.

Definition is_fulfilled {A} (result : Settled A) : bool :=
  match result with
  | Fulfilled _ => true
  | Rejected _ => false
  end.

(** [result.value] *)
Definition settled_value {A} (result : Settled (list A)) : list A :=
  match result with
  | Fulfilled value => value
  | Rejected _ => []
  end.

(** [if (!combinedResults.has(item.id)) combinedResults.set(item.id, item)] *)
Definition add_result (combined : JSMap.t ElasticsearchSearchResult)
    (item : ElasticsearchSearchResult) : JSMap.t ElasticsearchSearchResult :=
  if JSMap.has combined (id item) then combined
  else JSMap.set combined (id item) item.

(** "Combine and deduplicate results" *)
Definition combineResults (allResults : list (Settled (list ElasticsearchSearchResult)))
  : JSMap.t ElasticsearchSearchResult :=
  fold_left
    (fun combined result => fold_left add_result (settled_value result) combined)
    (List.filter is_fulfilled allResults)
    JSMap.empty.

Definition mergeResults (allResults : list (Settled (list ElasticsearchSearchResult)))
    (limit : Z) : list ElasticsearchSearchResult :=
  JS.slice 0 limit (JSMap.values (combineResults allResults)).

(** The messages of the strategies of a smart search, in the order they are
    pushed: the quoted phrase, the key terms, the first long key term. *)
Definition strategy_messages (searchTerm : string) : list string :=
  let keyTerms := extractKeyTerms searchTerm in
  let importantWords :=
    List.filter (fun term => 4 <? Z.of_nat (String.length term)) keyTerms in
  ([String.append dquote (String.append searchTerm dquote)]
   ++ (if 0 <? Z.of_nat (length keyTerms) then [JS.join_space keyTerms] else [])
   ++ match importantWords with
      | word :: _ => [word]
      | [] => []
      end)%list.

Section Handlers.

Variable configManager : MultiTeamConfig.
Variable store : Store.
Variable now : Z.

(** The searches of a smart search, one per strategy. *)
Definition searchPromises (team : string) (params : SearchExceptionsParams)
    (searchTerm : string) : list (M (list ElasticsearchSearchResult)) :=
  List.map (fun msg =>
              searchExceptions configManager store now team
                (filters_with_message params (Some msg)))
           (strategy_messages searchTerm).

Definition smartSearch (team : string) (params : SearchExceptionsParams)
    (searchTerm : string) : M (list ElasticsearchSearchResult) :=
  allResults ← allSettled (searchPromises team params searchTerm);
  mret (mergeResults allResults (p_limit params)).

Definition searchExceptionsBody (team : string) (params : SearchExceptionsParams)
  : M SearchPayload :=
  teamConfig ← lift (getTeamConfig configManager team);
  _ ← check_allowed teamConfig "search_exceptions" team;
  let term := JS.or_else (p_message params) (p_query params) in
  results ←
    (if p_smartSearch params && JS.truthy term
     then smartSearch team params (default EmptyString term)
     else searchExceptions configManager store now team
            (filters_with_message params term));
  mret {| out_teamId := team;
          out_environment := JS.or_else (p_environment params)
                                        (defaultEnvironment teamConfig);
          out_totalResults := Z.of_nat (length results);
          out_results := results |}.

(** [searchExceptionsHandler] *)
Definition searchExceptionsHandler (team : string) (params : SearchExceptionsParams)
  : ToolResult SearchPayload * list StoreCall :=
  respond (searchExceptionsBody team params).

(** *** search-logs-tool.ts *)

Definition searchLogsBody (team : string) (env msg svc : option string)
    (range : option TimeRange) : M SearchPayload :=
  teamConfig ← lift (getTeamConfig configManager team);
  _ ← check_allowed teamConfig "search_logs" team;
  results ← searchLogs configManager store now team
              {| sf_environment := env; sf_timeRange := range;
                 sf_timeframe := None; sf_severity := None;
                 sf_service := svc; sf_message := msg;
                 sf_limit := None; sf_sortByFrequency := None |};
  mret {| out_teamId := team;
          out_environment := JS.or_else env (defaultEnvironment teamConfig);
          out_totalResults := Z.of_nat (length results);
          out_results := results |}.

Definition searchLogsHandler (team : string) (env msg svc : option string)
    (range : option TimeRange) : ToolResult SearchPayload * list StoreCall :=
  respond (searchLogsBody team env msg svc range).

(** *** test-connection-tool.ts *)

Record ConnectionPayload : Type := {
  cp_teamId : string;
  cp_environment : option string;
  cp_connected : bool
}.

Definition testConnectionBody (team : string) (env : option string)
  : M ConnectionPayload :=
  teamConfig ← lift (getTeamConfig configManager team);
  let resolved := JS.or_else env (defaultEnvironment teamConfig) in
  isConnected ← testConnection configManager store team env;
  mret {| cp_teamId := team;
          cp_environment := resolved;
          cp_connected := isConnected |}.

(** [testConnectionHandler] *)
Definition testConnectionHandler (team : string) (env : option string)
  : ToolResult ConnectionPayload * list StoreCall :=
  respond (testConnectionBody team env).

(** *** analyze-specific-exception-tool.ts *)

Definition analyzeExceptionBody (team : string) (env : option string)
    (exceptionMessage timeframe : string) : M SpecificExceptionAnalysis :=
  teamConfig ← lift (getTeamConfig configManager team);
  _ ← check_allowed teamConfig "analyze_exception" team;
  analyzeSpecificException configManager store now team exceptionMessage
    (Some timeframe)
    {| sf_environment := env; sf_timeRange := None; sf_timeframe := None;
       sf_severity := None; sf_service := None; sf_message := None;
       sf_limit := None; sf_sortByFrequency := None |}.

Definition analyzeExceptionHandler (team : string) (env : option string)
    (exceptionMessage timeframe : string)
  : ToolResult SpecificExceptionAnalysis * list StoreCall :=
  respond (analyzeExceptionBody team env exceptionMessage timeframe).

(** *** analyze-trends-tool.ts *)

Inductive AnalysisType : Type := Exceptions | Services | Both.

Record AnalyzeTrendsParams : Type := {
  at_environment : option string;
  at_timeRange : option TimeRange;
  at_timeframe : string;
  at_analysisType : AnalysisType;
  at_services : option (list string)
}.

Record TrendsPayload : Type := {
  tp_teamId : string;
  tp_environment : option string;
  tp_exceptionAnalysis : option ExceptionAnalysis;
  tp_serviceAnalysis : option (list ServiceExceptionTrend)
}.

Definition wants_exceptions (t : AnalysisType) : bool :=
  match t with Exceptions | Both => true | Services => false end.

Definition wants_services (t : AnalysisType) : bool :=
  match t with Services | Both => true | Exceptions => false end.

Definition analyzeTrendsBody (team : string) (params : AnalyzeTrendsParams)
  : M TrendsPayload :=
  teamConfig ← lift (getTeamConfig configManager team);
  _ ← check_allowed teamConfig "analyze_trends" team;
  exceptionAnalysis ←
    (if wants_exceptions (at_analysisType params) then
       analysis ← analyzeExceptions configManager store now team
                    {| sf_environment := at_environment params;
                       sf_timeRange := at_timeRange params;
                       sf_timeframe := None; sf_severity := None;
                       sf_service := None; sf_message := None;
                       sf_limit := None; sf_sortByFrequency := None |};
       mret (Some analysis)
     else mret None);
  serviceAnalysis ←
    (if wants_services (at_analysisType params) then
       serviceTrends ← getServiceExceptionTrends configManager store now team
                         (Some (at_timeframe params))
                         {| sf_environment := at_environment params;
                            sf_timeRange := None; sf_timeframe := None;
                            sf_severity := None; sf_service := None;
                            sf_message := None; sf_limit := None;
                            sf_sortByFrequency := None |};
       mret (Some (match at_services params with
                   | Some wanted =>
                       List.filter (fun trend => array_includes wanted (st_service trend))
                                   serviceTrends
                   | None => serviceTrends
                   end))
     else mret None);
  mret {| tp_teamId := team;
          tp_environment := JS.or_else (at_environment params)
                                       (defaultEnvironment teamConfig);
          tp_exceptionAnalysis := exceptionAnalysis;
          tp_serviceAnalysis := serviceAnalysis |}.

Definition analyzeTrendsHandler (team : string) (params : AnalyzeTrendsParams)
  : ToolResult TrendsPayload * list StoreCall :=
  respond (analyzeTrendsBody team params).

(** *** The five registered tools (elasticsearch-mcp-server.ts) *)

Inductive Request : Type :=
| SearchExceptionsRequest (params : SearchExceptionsParams)
| AnalyzeExceptionRequest (env : option string) (exceptionMessage timeframe : string)
| AnalyzeTrendsRequest (params : AnalyzeTrendsParams)
| SearchLogsRequest (env msg svc : option string) (range : option TimeRange)
| TestConnectionRequest (env : option string).

(** The name each tool is registered under. *)
Definition operation_name (request : Request) : string :=
  match request with
  | SearchExceptionsRequest _ => "search_exceptions"
  | AnalyzeExceptionRequest _ _ _ => "analyze_exception"
  | AnalyzeTrendsRequest _ => "analyze_trends"
  | SearchLogsRequest _ _ _ _ => "search_logs"
  | TestConnectionRequest _ => "test_connection"
  end.


(** The error of the response to a request, if it is one, and the calls
    the request sent to the store. *)
Definition handle (team : string) (request : Request)
  : option Error * list StoreCall :=
  match request with
  | SearchExceptionsRequest params =>
      let '(r, trace) := searchExceptionsHandler team params in (tool_error r, trace)
  | AnalyzeExceptionRequest env exceptionMessage timeframe =>
      let '(r, trace) := analyzeExceptionHandler team env exceptionMessage timeframe in
      (tool_error r, trace)
  | AnalyzeTrendsRequest params =>
      let '(r, trace) := analyzeTrendsHandler team params in (tool_error r, trace)
  | SearchLogsRequest env msg svc range =>
      let '(r, trace) := searchLogsHandler team env msg svc range in
      (tool_error r, trace)
  | TestConnectionRequest env =>
      let '(r, trace) := testConnectionHandler team env in (tool_error r, trace)
  end.

End Handlers.

(** ** Notions used to state the properties *)

(** Every character of [s] satisfies [p]. *)
Fixpoint all_chars (p : ascii -> bool) (s : string) : bool :=
  match s with
  | EmptyString => true
  | String c s' => p c && all_chars p s'
  end.

(** A lower-case letter, a digit or the underscore: what is left of a word
    once it is lower-cased and its punctuation is gone. *)
Definition is_term_char (c : ascii) : bool :=
  JS.in_range 97 122 c || JS.in_range 48 57 c || (JS.code c =? 95)%N.

(** The words of a message after normalisation, before any is dropped. *)
Definition tokens (message : string) : list string :=
  JS.split_spaces (JS.replace_special (JS.toLowerCase message)).

(** The elements of [l] in order, each kept the first time it is seen and
    only if it is not among [seen]. *)
Fixpoint first_seen (seen l : list string) : list string :=
  match l with
  | [] => []
  | x :: l' =>
      if bool_decide (x ∈ seen) then first_seen (seen ++ [x]) l'
      else x :: first_seen (seen ++ [x]) l'
  end.


(** The records the successful strategies returned, in the order of the
    strategy list. *)
Definition pool (allResults : list (Settled (list ElasticsearchSearchResult)))
  : list ElasticsearchSearchResult :=
  concat (List.map settled_value (List.filter is_fulfilled allResults)).

(** The first record of [l] that carries the id [k]. *)
Definition first_with_id (k : string) (l : list ElasticsearchSearchResult)
  : option ElasticsearchSearchResult :=
  List.find (fun r => String.eqb (id r) k) l.

(** The records of [l] in order, each kept if its id is new. *)
Fixpoint distinct_ids (seen : list string) (l : list ElasticsearchSearchResult)
  : list ElasticsearchSearchResult :=
  match l with
  | [] => []
  | x :: l' =>
      if bool_decide (id x ∈ seen) then distinct_ids seen l'
      else x :: distinct_ids (seen ++ [id x]) l'
  end.

(** The map whose entries are the given records under their ids. *)
Definition entries (records : list ElasticsearchSearchResult)
  : JSMap.t ElasticsearchSearchResult :=
  List.map (fun r => (id r, r)) records.

(** The percentage change in the words of the specification:
    [(secondHalfCount - firstHalfCount) / firstHalfCount * 100] when
    [firstHalfCount > 0], else [0]. *)
Definition spec_percentageChange (firstHalfCount secondHalfCount : Z) : Q :=
  if 0 <? firstHalfCount
  then ((inject_Z secondHalfCount - inject_Z firstHalfCount)
        / inject_Z firstHalfCount * inject_Z 100)%Q
  else 0%Q.






(** *** A tenant, a cluster and requests to evaluate the code on *)

Definition sample_environment : ElasticsearchEnvironmentConfig :=
  {| node := "https://alpha-prod-es.company.com";
     apiKey := Some "prod-api-key-for-alpha";
     username := None; password := None;
     maxRetries := None; requestTimeout := None |}.

(** A tenant allowed to search exceptions and nothing else. *)
Definition sample_team : TeamConfig :=
  {| teamId := "alpha";
     teamName := "Team Alpha";
     defaultEnvironment := Some "production";
     environments := {[ "production" := sample_environment ]};
     indexPatterns := {| exceptions := ["alpha-exceptions-*"];
                         applications := ["alpha-apm-*"];
                         logs := None |};
     maxSearchResults := Some 50;
     allowedOperations := Some ["search_exceptions"] |}.

(** A tenant without a list of allowed operations. *)
Definition open_team : TeamConfig :=
  {| teamId := "gamma";
     teamName := "Team Gamma";
     defaultEnvironment := Some "production";
     environments := {[ "production" := sample_environment ]};
     indexPatterns := {| exceptions := ["gamma-exceptions-*"];
                         applications := ["gamma-apm-*"];
                         logs := Some ["gamma-logs-*"] |};
     maxSearchResults := Some 100;
     allowedOperations := None |}.

Definition sample_config : MultiTeamConfig :=
  {| teams := <[ "alpha" := sample_team ]> {[ "gamma" := open_team ]} |}.

Definition sample_source (text : string) : Source :=
  {| src_timestamp := Some "2024-05-01T10:00:00.000+00:00";
     src_message := Some text;
     src_error_message := None; src_exception_message := None;
     src_log_message := None; src_log_level := Some "error";
     src_service_name := Some "payment"; src_environment := None;
     src_error_stack_trace := None; src_exception_stacktrace := None;
     src_tags := None |}.

Definition sample_hit (name text : string) : Hit :=
  {| hit_id := name; hit_index := "alpha-exceptions-1";
     hit_source := sample_source text |}.

Definition no_aggregations : Aggregations :=
  {| agg_total_count := 0; agg_unique_exceptions := 0;
     agg_top_exceptions := []; agg_time_distribution := [];
     agg_affected_services := []; agg_services := None;
     agg_frequent_exceptions := None |}.

(** A cluster holding seven matching documents: a search returns them up
    to the size it asks for. *)
Definition sample_store : Store :=
  {| es_search := fun _ request =>
       inr {| hits := firstn (Z.to_nat (sp_size request))
                        (List.map (fun name => sample_hit name "boom")
                                  ["1"; "2"; "3"; "4"; "5"; "6"; "7"]);
              hits_total := TotalNumber 7;
              aggregations := no_aggregations |};
     es_ping := fun _ => inr true |}.

(** A cluster that cannot be reached. *)
Definition unreachable_store : Store :=
  {| es_search := fun _ _ => inl "connect ECONNREFUSED";
     es_ping := fun _ => inl "connect ECONNREFUSED" |}.

(** A request for at most 5 exceptions of the last hour, no text given. *)
Definition five_of_last_hour : SearchExceptionsInput :=
  {| in_environment := None; in_message := None; in_service := None;
     in_severity := None; in_timeRange := None; in_query := None;
     in_timeframe := Some "1h"; in_limit := Some 5;
     in_sortByFrequency := None; in_smartSearch := None |}.

(** A smart search for a text, with the default limit. *)
Definition smart_request (env : option string) (text : string)
  : SearchExceptionsParams :=
  {| p_environment := env; p_message := Some text; p_service := None;
     p_severity := None; p_timeRange := None; p_query := None;
     p_timeframe := None; p_limit := 20; p_sortByFrequency := false;
     p_smartSearch := true |}.

Definition histogram (counts : list Z) : list HistogramBucket :=
  List.map (fun n => {| key_as_string := EmptyString; doc_count := n |}) counts.

Definition sample_record (name text : string) : ElasticsearchSearchResult :=
  exception_of_hit (sample_hit name text).


(** Every error a computation can throw satisfies [P]. *)
Definition raises_only {A} (P : Error -> Prop) (m : M A) : Prop :=
  forall w e w', m w = (inl e, w') -> P e.

Definition not_a_denial (e : Error) : Prop := isNotPermittedError e = false.

(** Two strategies that both return the document "2", with different
    contents. *)
Definition overlapping : list (Settled (list ElasticsearchSearchResult)) :=
  [ Fulfilled [sample_record "1" "phrase"; sample_record "2" "phrase"];
    Rejected (Failed "search exceptions" (StoreFailure "timeout"));
    Fulfilled [sample_record "2" "terms"; sample_record "3" "terms"] ].

(** ** Further operations of the service and of the configuration manager *)




Section ContextSearch.

Variable configManager : MultiTeamConfig.
Variable store : Store.
Variable now : Z.



End ContextSearch.

(** *** configManager.ts: validation *)

(** A team as it stands in the configuration file, before anything has
    checked it: the parts the validation asks for may be missing ([None]
    is a key that is absent or, for the pattern lists, not an array; an
    absent string is the empty string, which is as falsy). *)
Record RawIndexPatterns : Type := {
  raw_exceptions : option (list string);
  raw_applications : option (list string);
  raw_logs : option (list string)
}.

Record RawTeamConfig : Type := {
  raw_teamId : string;
  raw_teamName : string;
  raw_defaultEnvironment : option string;
  raw_environments : option (gmap string ElasticsearchEnvironmentConfig);
  raw_indexPatterns : option RawIndexPatterns;
  raw_maxSearchResults : option Z;
  raw_allowedOperations : option (list string)
}.

(** The errors of [validateTeamConfig], one per [throw], in its order. *)
Inductive ValidationError : Type :=
| MissingTeamName (team : string)
| MissingEnvironments (team : string)
| NoEnvironmentWithNode (team : string)
| DefaultEnvironmentUnknown (team env : string)
| DefaultEnvironmentWithoutNode (team env : string)
| MissingIndexPatterns (team : string)
| ExceptionsNotAnArray (team : string)
| ApplicationsNotAnArray (team : string).

Definition has_node (config : ElasticsearchEnvironmentConfig) : bool :=
  negb (String.eqb (node config) EmptyString).

(** [Object.entries(environments).filter(([, config]) => config.node)]; only
    whether it is empty is used. *)
Definition configuredEnvs (envs : gmap string ElasticsearchEnvironmentConfig)
  : list (string * ElasticsearchEnvironmentConfig) :=
  List.filter (fun entry => has_node (snd entry)) (map_to_list envs).

(** [ConfigManager.validateTeamConfig]: [None] when no check throws. *)
Definition validateTeamConfig (team : string) (teamConfig : RawTeamConfig)
  : option ValidationError :=
  if String.eqb (raw_teamName teamConfig) EmptyString
  then Some (MissingTeamName team)
  else match raw_environments teamConfig with
  | None => Some (MissingEnvironments team)
  | Some envs =>
      match configuredEnvs envs with
      | [] => Some (NoEnvironmentWithNode team)
      | _ :: _ =>
          let default_check :=
            if JS.truthy (raw_defaultEnvironment teamConfig) then
              let env := default EmptyString (raw_defaultEnvironment teamConfig) in
              match envs !! env with
              | None => Some (DefaultEnvironmentUnknown team env)
              | Some config =>
                  if has_node config then None
                  else Some (DefaultEnvironmentWithoutNode team env)
              end
            else None in
          match default_check with
          | Some e => Some e
          | None =>
              match raw_indexPatterns teamConfig with
              | None => Some (MissingIndexPatterns team)
              | Some patterns =>
                  match raw_exceptions patterns with
                  | None => Some (ExceptionsNotAnArray team)
                  | Some _ =>
                      match raw_applications patterns with
                      | None => Some (ApplicationsNotAnArray team)
                      | Some _ => None
                      end
                  end
              end
          end
      end
  end.

(** The team the rest of the program sees in a raw team ([as TeamConfig]):
    defined when the parts the type requires are there. *)
Definition as_TeamConfig (teamConfig : RawTeamConfig) : option TeamConfig :=
  match raw_environments teamConfig, raw_indexPatterns teamConfig with
  | Some envs, Some patterns =>
      match raw_exceptions patterns, raw_applications patterns with
      | Some exc, Some app =>
          Some {| teamId := raw_teamId teamConfig;
                  teamName := raw_teamName teamConfig;
                  defaultEnvironment := raw_defaultEnvironment teamConfig;
                  environments := envs;
                  indexPatterns := {| exceptions := exc; applications := app;
                                      logs := raw_logs patterns |};
                  maxSearchResults := raw_maxSearchResults teamConfig;
                  allowedOperations := raw_allowedOperations teamConfig |}
      | _, _ => None
      end
  | _, _ => None
  end.

(** *** configManager.ts: adding and removing teams *)






(** The keyword of each rule of the cause and solution tables, with the
    first cause and the first solution it adds. *)
Definition suggestion_rules : list (string * (string * string)) :=
  [ ("null", ("Null pointer or undefined variable access",
              "Add null checks before accessing variables or objects"));
    ("connection", ("Network connectivity issues",
                    "Implement retry mechanisms with exponential backoff"));
    ("network", ("Network connectivity issues",
                 "Implement retry mechanisms with exponential backoff"));
    ("memory", ("Memory leak or insufficient heap size",
                "Increase JVM heap size or application memory limits"));
    ("heap", ("Memory leak or insufficient heap size",
              "Increase JVM heap size or application memory limits"));
    ("permission", ("Insufficient permissions or access rights",
                    "Check and update file or resource permissions"));
    ("access", ("Insufficient permissions or access rights",
                "Check and update file or resource permissions")) ].

(** Some keyword of the tables occurs in the message. *)
Definition any_rule_matches (exceptionMessage : string) : bool :=
  existsb (fun rule => mentions exceptionMessage (fst rule)) suggestion_rules.

Definition fallback_causes : list string :=
  [ "Code logic error or unexpected input";
    "External dependency failure";
    "Configuration mismatch" ].

Definition fallback_solutions : list string :=
  [ "Add comprehensive logging around the error location";
    "Implement proper input validation and sanitization";
    "Add unit tests to cover edge cases";
    "Review and update documentation" ].

(** A team as a configuration file may hold it. *)
Definition sample_raw_team : RawTeamConfig :=
  {| raw_teamId := "alpha";
     raw_teamName := "Team Alpha";
     raw_defaultEnvironment := Some "production";
     raw_environments := Some {[ "production" := sample_environment ]};
     raw_indexPatterns := Some {| raw_exceptions := Some ["alpha-exceptions-*"];
                                  raw_applications := Some ["alpha-apm-*"];
                                  raw_logs := None |};
     raw_maxSearchResults := Some 50;
     raw_allowedOperations := Some ["search_exceptions"] |}.


Definition sample_input : SearchExceptionsInput :=
  {| in_environment := None;
     in_message := Some "Connection refused in payment service";
     in_service := None; in_severity := None; in_timeRange := None;
     in_query := None; in_timeframe := Some "24h"; in_limit := Some 5;
     in_sortByFrequency := None; in_smartSearch := None |}.

(** ** Key-term extraction *)

Section ArrayFacts.

Context {A : Type}.

Lemma slice_prefix (n : Z) (l : list A) :
  0 <= n -> JS.slice 0 n l = firstn (Z.to_nat n) l.
Proof.
  intros Hn. unfold JS.slice.
  change (0 <? 0) with false. cbv iota.
  destruct (n <? 0) eqn:E; [apply Z.ltb_lt in E; lia|].
  rewrite (Z.min_l 0) by lia. rewrite Z.sub_0_r.
  change (Z.to_nat 0) with 0%nat. rewrite skipn_O.
  destruct (Z.le_gt_cases n (Z.of_nat (length l))) as [H|H].
  - now rewrite Z.min_l by lia.
  - rewrite Z.min_r by lia. rewrite Nat2Z.id.
    rewrite firstn_all. symmetry. apply firstn_all2. lia.
Qed.

Lemma slice_prefix_length (n : Z) (l : list A) :
  0 <= n -> Z.of_nat (length (JS.slice 0 n l)) <= n.
Proof.
  intros Hn. rewrite slice_prefix by assumption.
  rewrite length_firstn. lia.
Qed.

End ArrayFacts.

Lemma eqb_decide (x y : string) : String.eqb x y = bool_decide (x = y).
Proof.
  destruct (String.eqb_spec x y) as [->|Hne].
  - now rewrite bool_decide_eq_true_2.
  - now rewrite bool_decide_eq_false_2.
Qed.

Lemma indexOf_from_absent (x : string) (l : list string) (i : Z) :
  x ∉ l -> JS.indexOf_from x l i = -1.
Proof.
  revert i. induction l as [|y l IH]; intros i Hx; simpl; [reflexivity|].
  apply not_elem_of_cons in Hx as [Hne Hx].
  destruct (String.eqb_spec y x) as [->|_]; [congruence|].
  now apply IH.
Qed.

Lemma indexOf_from_present (x : string) (l : list string) (i : Z) :
  x ∈ l -> i <= JS.indexOf_from x l i < i + Z.of_nat (length l).
Proof.
  revert i. induction l as [|y l IH]; intros i Hx.
  - now apply elem_of_nil in Hx.
  - simpl JS.indexOf_from. simpl length.
    destruct (String.eqb_spec y x) as [->|Hne]; [lia|].
    apply elem_of_cons in Hx as [->|Hx]; [congruence|].
    specialize (IH (i + 1) Hx). lia.
Qed.

Lemma indexOf_from_app (x : string) (pre l : list string) (i : Z) :
  x ∉ pre ->
  JS.indexOf_from x (pre ++ l) i = JS.indexOf_from x l (i + Z.of_nat (length pre)).
Proof.
  revert i. induction pre as [|y pre IH]; intros i Hx; simpl.
  - f_equal. lia.
  - apply not_elem_of_cons in Hx as [Hne Hx].
    destruct (String.eqb_spec y x) as [->|_]; [congruence|].
    rewrite IH by assumption. f_equal. lia.
Qed.

Lemma indexOf_from_app_l (x : string) (pre l : list string) (i : Z) :
  x ∈ pre -> JS.indexOf_from x (pre ++ l) i < i + Z.of_nat (length pre).
Proof.
  revert i. induction pre as [|y pre IH]; intros i Hx.
  - now apply elem_of_nil in Hx.
  - simpl. destruct (String.eqb_spec y x) as [->|Hne]; [lia|].
    apply elem_of_cons in Hx as [->|Hx]; [congruence|].
    specialize (IH (i + 1) Hx). lia.
Qed.

Lemma first_occurrence_here (pre l : list string) (x : string) :
  first_occurrence (pre ++ x :: l) x (Z.of_nat (length pre))
  = negb (bool_decide (x ∈ pre)).
Proof.
  unfold first_occurrence, JS.indexOf.
  destruct (decide (x ∈ pre)) as [Hin|Hout].
  - rewrite bool_decide_eq_true_2 by assumption. simpl.
    apply Z.eqb_neq.
    pose proof (indexOf_from_app_l x pre (x :: l) 0 Hin). lia.
  - rewrite bool_decide_eq_false_2 by assumption. simpl.
    rewrite indexOf_from_app by assumption. simpl.
    rewrite String.eqb_refl. apply Z.eqb_eq. lia.
Qed.

(** The index filter of the source keeps exactly the first occurrences. *)
Lemma filter_from_first_seen (pre l : list string) :
  JS.filter_from (first_occurrence (pre ++ l)) l (Z.of_nat (length pre))
  = first_seen pre l.
Proof.
  revert pre. induction l as [|x l IH]; intros pre; [reflexivity|].
  simpl. rewrite first_occurrence_here.
  specialize (IH (pre ++ [x])).
  rewrite <- app_assoc, length_app in IH. simpl in IH.
  replace (Z.of_nat (length pre + 1)) with (Z.of_nat (length pre) + 1) in IH by lia.
  rewrite IH.
  now destruct (bool_decide (x ∈ pre)).
Qed.

Lemma filter_indexed_first_seen (arr : list string) :
  JS.filter_indexed (first_occurrence arr) arr = first_seen [] arr.
Proof. exact (filter_from_first_seen [] arr). Qed.

Lemma first_seen_elem (seen l : list string) (x : string) :
  x ∈ first_seen seen l -> x ∈ l /\ x ∉ seen.
Proof.
  revert seen. induction l as [|y l IH]; intros seen Hx; simpl in Hx.
  - now apply elem_of_nil in Hx.
  - destruct (decide (y ∈ seen)) as [Hy|Hy].
    + rewrite bool_decide_eq_true_2 in Hx by assumption.
      apply IH in Hx as [Hl Hs]. split; [now right|].
      intros Hn. apply Hs, elem_of_app. now left.
    + rewrite bool_decide_eq_false_2 in Hx by assumption.
      apply elem_of_cons in Hx as [->|Hx]; [split; [now left|assumption]|].
      apply IH in Hx as [Hl Hs]. split; [now right|].
      intros Hn. apply Hs, elem_of_app. now left.
Qed.

Lemma first_seen_fresh (seen l : list string) (x : string) :
  x ∈ first_seen (seen ++ [x]) l -> False.
Proof.
  intros Hx. apply first_seen_elem in Hx as [_ Hs].
  apply Hs, elem_of_app. right. now left.
Qed.

Lemma first_seen_NoDup (seen l : list string) : NoDup (first_seen seen l).
Proof.
  revert seen. induction l as [|y l IH]; intros seen; simpl; [constructor|].
  destruct (bool_decide (y ∈ seen)); [apply IH|].
  constructor; [|apply IH].
  intros Hy. exact (first_seen_fresh _ _ _ Hy).
Qed.

(** Terms come out in the order of their first occurrence. *)
Lemma first_seen_order (l seen : list string) (i j : nat) (a b : string) (k : Z) :
  first_seen seen l !! i = Some a ->
  first_seen seen l !! j = Some b ->
  (i < j)%nat ->
  JS.indexOf_from a l k < JS.indexOf_from b l k.
Proof.
  revert seen i j k. induction l as [|x l IH]; intros seen i j k Ha Hb Hij.
  - simpl in Ha. now rewrite lookup_nil in Ha.
  - simpl in Ha, Hb.
    assert (Hskip : forall c, c ∈ first_seen (seen ++ [x]) l ->
              JS.indexOf_from c (x :: l) k = JS.indexOf_from c l (k + 1)).
    { intros c Hc. simpl.
      destruct (String.eqb_spec x c) as [->|_]; [|reflexivity].
      now apply first_seen_fresh in Hc. }
    destruct (bool_decide (x ∈ seen)).
    + rewrite !Hskip by (eapply list_elem_of_lookup_2; eassumption).
      eapply IH; eassumption.
    + destruct i as [|i], j as [|j]; try lia.
      * simpl in Ha. injection Ha as ->. simpl in Hb.
        assert (Hbin : b ∈ first_seen (seen ++ [a]) l)
          by (eapply list_elem_of_lookup_2; eassumption).
        rewrite (Hskip b Hbin). simpl. rewrite String.eqb_refl.
        apply first_seen_elem in Hbin as [Hbl _].
        pose proof (indexOf_from_present b l (k + 1) Hbl). lia.
      * simpl in Ha, Hb.
        rewrite !Hskip by (eapply list_elem_of_lookup_2; eassumption).
        eapply IH; [eassumption|eassumption|lia].
Qed.

(** Dropping other elements does not change which of two kept elements is
    seen first. *)
Lemma indexOf_filter_order (keep : string -> bool) (l : list string)
    (a b : string) (k k' : Z) :
  a ∈ List.filter keep l -> b ∈ List.filter keep l ->
  JS.indexOf_from a (List.filter keep l) k < JS.indexOf_from b (List.filter keep l) k ->
  JS.indexOf_from a l k' < JS.indexOf_from b l k'.
Proof.
  revert k k'. induction l as [|x l IH]; intros k k' Ha Hb Hlt.
  - simpl in Ha. now apply elem_of_nil in Ha.
  - assert (Hka : keep a = true).
    { apply list_elem_of_In, filter_In in Ha. tauto. }
    assert (Hkb : keep b = true).
    { apply list_elem_of_In, filter_In in Hb. tauto. }
    simpl in *. destruct (keep x) eqn:Hx.
    + simpl in Hlt. destruct (String.eqb_spec x a) as [->|Hxa].
      * destruct (String.eqb_spec a b) as [->|Hab]; [lia|].
        apply elem_of_cons in Hb as [->|Hb]; [congruence|].
        assert (Hbl : b ∈ l).
        { apply list_elem_of_In. apply list_elem_of_In, filter_In in Hb. tauto. }
        pose proof (indexOf_from_present b l (k' + 1) Hbl). lia.
      * apply elem_of_cons in Ha as [->|Ha]; [congruence|].
        destruct (String.eqb_spec x b) as [->|Hxb].
        -- pose proof (indexOf_from_present a _ (k + 1) Ha). lia.
        -- apply elem_of_cons in Hb as [->|Hb]; [congruence|].
           eapply IH; eassumption.
    + destruct (String.eqb_spec x a) as [->|_]; [congruence|].
      destruct (String.eqb_spec x b) as [->|_]; [congruence|].
      eapply IH; eassumption.
Qed.

Lemma lower_blank_char (c : ascii) :
  let d := JS.blank_special (JS.char_toLowerCase c) in
  is_term_char d || JS.is_space d = true.
Proof.
  destruct c as [[] [] [] [] [] [] [] []]; vm_compute; reflexivity.
Qed.

Lemma normalised_chars (s : string) :
  all_chars (fun d => is_term_char d || JS.is_space d)
            (JS.replace_special (JS.toLowerCase s)) = true.
Proof.
  unfold JS.replace_special, JS.toLowerCase.
  induction s as [|c s IH]; [reflexivity|].
  cbn [JS.string_map all_chars]. rewrite IH, andb_true_r.
  apply lower_blank_char.
Qed.

(** A piece of a split holds no white space, and nothing the string did
    not hold. *)
Lemma split_spaces_chars (p : ascii -> bool) (s : string) :
  all_chars (fun c => p c || JS.is_space c) s = true ->
  Forall (fun t => all_chars p t = true) (JS.split_spaces s).
Proof.
  induction s as [|c s IH]; intros Hs.
  - repeat constructor.
  - simpl in Hs. apply andb_true_iff in Hs as [Hc Hs].
    specialize (IH Hs). simpl.
    destruct (JS.is_space c) eqn:Hsp.
    + destruct s as [|c' s']; [repeat constructor|].
      destruct (JS.is_space c'); [exact IH|].
      constructor; [reflexivity|exact IH].
    + rewrite orb_false_r in Hc.
      destruct (JS.split_spaces s) as [|t ts].
      * repeat constructor. simpl. now rewrite Hc.
      * inversion IH; subst. constructor; [|assumption].
        simpl. now rewrite Hc.
Qed.

Lemma tokens_chars (message : string) :
  Forall (fun t => all_chars is_term_char t = true) (tokens message).
Proof. apply split_spaces_chars, normalised_chars. Qed.

Lemma extractKeyTerms_unfold (message : string) :
  extractKeyTerms message
  = firstn 5 (first_seen [] (List.filter keep_term (tokens message))).
Proof.
  unfold extractKeyTerms, candidate_terms, tokens.
  rewrite filter_indexed_first_seen. now rewrite slice_prefix by lia.
Qed.

Lemma extractKeyTerms_candidate (message term : string) :
  term ∈ extractKeyTerms message ->
  term ∈ tokens message /\ keep_term term = true.
Proof.
  rewrite extractKeyTerms_unfold. intros Hin.
  apply (sublist_subseteq _ _ (sublist_take _ 5)) in Hin.
  apply first_seen_elem in Hin as [Hin _].
  apply list_elem_of_In, filter_In in Hin as [Hin Hk].
  split; [now apply list_elem_of_In|assumption].
Qed.

(** C8. Key-term extraction returns at most 5 terms; each is made of
    lower-case letters, digits and underscores only (lower-cased,
    punctuation stripped), is longer than 2 characters and is no stop
    word; no term is returned twice, and the terms come in the order in
    which they are first seen among the words of the message. On
    "NullPointerException: the request to user-service returned null" the
    result leaves out "the" and "to" and starts with
    "nullpointerexception". *)
Theorem extractKeyTerms_spec (message : string) :
  (length (extractKeyTerms message) <= 5)%nat
  /\ Forall (fun term =>
               all_chars is_term_char term = true
               /\ (2 < String.length term)%nat
               /\ term ∉ stopWords)
            (extractKeyTerms message)
  /\ NoDup (extractKeyTerms message)
  /\ (forall (i j : nat) (a b : string),
        extractKeyTerms message !! i = Some a ->
        extractKeyTerms message !! j = Some b ->
        (i < j)%nat ->
        0 <= JS.indexOf a (tokens message) < JS.indexOf b (tokens message))
  /\ extractKeyTerms
       "NullPointerException: the request to user-service returned null"
     = ["nullpointerexception"; "request"; "user"; "service"; "returned"].
Proof.
  split; [|split; [|split; [|split]]].
  - rewrite extractKeyTerms_unfold, length_firstn. lia.
  - apply Forall_forall. intros term Hin.
    apply extractKeyTerms_candidate in Hin as [Htok Hkeep].
    unfold keep_term in Hkeep. apply andb_true_iff in Hkeep as [Hlen Hstop].
    split; [|split].
    + pose proof (tokens_chars message) as Hall.
      rewrite Forall_forall in Hall. now apply Hall.
    + apply Z.ltb_lt in Hlen. lia.
    + apply negb_true_iff, bool_decide_eq_false in Hstop. exact Hstop.
  - rewrite extractKeyTerms_unfold.
    eapply sublist_NoDup; [apply first_seen_NoDup|apply sublist_take].
  - intros i j a b Ha Hb Hij.
    assert (Hain : a ∈ tokens message).
    { apply (extractKeyTerms_candidate message a).
      eapply list_elem_of_lookup_2; eassumption. }
    split.
    { pose proof (indexOf_from_present a (tokens message) 0 Hain).
      unfold JS.indexOf. lia. }
    rewrite extractKeyTerms_unfold in Ha, Hb.
    rewrite lookup_take_Some in Ha, Hb. destruct Ha as [Ha _], Hb as [Hb _].
    assert (Hkept : forall c n,
              first_seen [] (List.filter keep_term (tokens message)) !! n = Some c ->
              c ∈ List.filter keep_term (tokens message)).
    { intros c n Hc. apply (first_seen_elem [] _ c).
      eapply list_elem_of_lookup_2; exact Hc. }
    unfold JS.indexOf.
    apply (indexOf_filter_order keep_term (tokens message) a b 0 0);
      [exact (Hkept a i Ha)|exact (Hkept b j Hb)|].
    eapply first_seen_order; eassumption.
  - vm_compute. reflexivity.
Qed.

(** ** Smart search: merging the strategies *)

Lemma JSMap_has_keys {V} (m : JSMap.t V) (k : string) :
  JSMap.has m k = bool_decide (k ∈ List.map fst m).
Proof.
  induction m as [|[k' v] m IH].
  - symmetry. apply bool_decide_eq_false_2, not_elem_of_nil.
  - simpl. rewrite IH. destruct (String.eqb_spec k' k) as [->|Hne]; simpl.
    + symmetry. apply bool_decide_eq_true_2. now left.
    + apply bool_decide_ext. rewrite elem_of_cons.
      split; [tauto|intros [E|Hin]; [congruence|assumption]].
Qed.

Lemma JSMap_set_new {V} (m : JSMap.t V) (k : string) (v : V) :
  JSMap.has m k = false -> JSMap.set m k v = m ++ [(k, v)].
Proof.
  induction m as [|[k' v'] m IH]; simpl; intros Hk; [reflexivity|].
  apply orb_false_iff in Hk as [Hne Hk]. rewrite Hne. now rewrite IH.
Qed.

Lemma entries_keys (records : list ElasticsearchSearchResult) :
  List.map fst (entries records) = List.map id records.
Proof. unfold entries. rewrite List.map_map. reflexivity. Qed.

Lemma entries_values (records : list ElasticsearchSearchResult) :
  JSMap.values (entries records) = records.
Proof.
  unfold JSMap.values, entries. rewrite List.map_map. apply List.map_id.
Qed.

Lemma add_results_entries (l records : list ElasticsearchSearchResult) :
  fold_left add_result l (entries records)
  = entries (records ++ distinct_ids (List.map id records) l).
Proof.
  revert records. induction l as [|x l IH]; intros records; simpl.
  - now rewrite app_nil_r.
  - unfold add_result at 2. rewrite JSMap_has_keys, entries_keys.
    destruct (bool_decide (id x ∈ List.map id records)) eqn:Hseen.
    + apply IH.
    + rewrite JSMap_set_new
        by (now rewrite JSMap_has_keys, entries_keys).
      change (entries records ++ [(id x, x)]) with (entries records ++ entries [x]).
      unfold entries at 1 2. rewrite <- List.map_app. fold (entries (records ++ [x])).
      rewrite IH, List.map_app, <- app_assoc. reflexivity.
Qed.

Lemma fold_left_nested {S T U} (f : S -> T -> S) (g : U -> list T)
    (l : list U) (a : S) :
  fold_left (fun acc u => fold_left f (g u) acc) l a
  = fold_left f (concat (List.map g l)) a.
Proof.
  revert a. induction l as [|u l IH]; intros a; simpl; [reflexivity|].
  now rewrite fold_left_app, IH.
Qed.

(** The map the handler builds holds the first record of every id. *)
Lemma combineResults_distinct (allResults : list (Settled (list ElasticsearchSearchResult))) :
  JSMap.values (combineResults allResults) = distinct_ids [] (pool allResults).
Proof.
  unfold combineResults, pool. rewrite fold_left_nested.
  change (@JSMap.empty ElasticsearchSearchResult) with (entries []).
  rewrite add_results_entries. apply entries_values.
Qed.

Lemma distinct_ids_elem (seen : list string) (l : list ElasticsearchSearchResult)
    (y : ElasticsearchSearchResult) :
  y ∈ distinct_ids seen l ->
  (id y ∉ seen) /\ first_with_id (id y) l = Some y.
Proof.
  revert seen. induction l as [|x l IH]; intros seen Hy; simpl in Hy.
  - now apply elem_of_nil in Hy.
  - unfold first_with_id. simpl.
    destruct (decide (id x ∈ seen)) as [Hx|Hx].
    + rewrite bool_decide_eq_true_2 in Hy by assumption.
      apply IH in Hy as [Hs Hf]. split; [assumption|].
      destruct (String.eqb_spec (id x) (id y)) as [E|_]; [congruence|exact Hf].
    + rewrite bool_decide_eq_false_2 in Hy by assumption.
      apply elem_of_cons in Hy as [->|Hy].
      * split; [assumption|]. now rewrite String.eqb_refl.
      * apply IH in Hy as [Hs Hf].
        rewrite elem_of_app, list_elem_of_singleton in Hs.
        split; [tauto|].
        destruct (String.eqb_spec (id x) (id y)) as [E|_]; [|exact Hf].
        exfalso. apply Hs. now right.
Qed.

Lemma distinct_ids_NoDup (seen : list string) (l : list ElasticsearchSearchResult) :
  NoDup (List.map id (distinct_ids seen l)).
Proof.
  revert seen. induction l as [|x l IH]; intros seen; simpl; [constructor|].
  destruct (bool_decide (id x ∈ seen)); [apply IH|].
  simpl. constructor; [|apply IH].
  intros Hin. apply list_elem_of_In, in_map_iff in Hin as (y & Hid & Hy).
  apply list_elem_of_In, distinct_ids_elem in Hy as [Hs _].
  apply Hs. rewrite Hid. apply elem_of_app. right. now left.
Qed.

Lemma distinct_ids_cover (seen : list string) (l : list ElasticsearchSearchResult)
    (x : ElasticsearchSearchResult) :
  x ∈ l -> id x ∈ seen \/ id x ∈ List.map id (distinct_ids seen l).
Proof.
  revert seen. induction l as [|y l IH]; intros seen Hx.
  - now apply elem_of_nil in Hx.
  - simpl. apply elem_of_cons in Hx as [->|Hx].
    + destruct (decide (id y ∈ seen)) as [Hy|Hy]; [now left|].
      rewrite bool_decide_eq_false_2 by assumption. right. now left.
    + destruct (decide (id y ∈ seen)) as [Hy|Hy].
      * rewrite bool_decide_eq_true_2 by assumption. now apply IH.
      * rewrite bool_decide_eq_false_2 by assumption.
        destruct (IH (seen ++ [id y]) Hx) as [Hs|Hr].
        -- apply elem_of_app in Hs as [Hs|Hs]; [now left|].
           apply list_elem_of_singleton in Hs. right. rewrite Hs. now left.
        -- right. now right.
Qed.

(** C5. Whatever the strategies of a smart search return, the merged
    output holds every id the successful strategies returned exactly once
    before truncation, each with the record of the first strategy in the
    list that returned it, and the output is the first [limit] of these
    records: no id twice, at most [limit] records. *)
Theorem mergeResults_spec
    (allResults : list (Settled (list ElasticsearchSearchResult))) (limit : Z) :
  0 <= limit ->
  let everything := JSMap.values (combineResults allResults) in
  let merged := mergeResults allResults limit in
  NoDup (List.map id everything)
  /\ (forall x, x ∈ pool allResults -> id x ∈ List.map id everything)
  /\ (forall y, y ∈ everything ->
        first_with_id (id y) (pool allResults) = Some y)
  /\ merged = firstn (Z.to_nat limit) everything
  /\ NoDup (List.map id merged)
  /\ Z.of_nat (length merged) <= limit.
Proof.
  intros Hlimit everything merged. subst everything merged.
  unfold mergeResults. rewrite combineResults_distinct.
  rewrite slice_prefix by assumption.
  split; [apply distinct_ids_NoDup|].
  split.
  { intros x Hx. destruct (distinct_ids_cover [] _ x Hx) as [Hnil|Hin];
      [now apply elem_of_nil in Hnil|exact Hin]. }
  split.
  { intros y Hy. now apply distinct_ids_elem in Hy. }
  split; [reflexivity|].
  split.
  - rewrite <- firstn_map.
    eapply sublist_NoDup; [apply distinct_ids_NoDup|apply sublist_take].
  - rewrite length_firstn. lia.
Qed.

(** ** Smart search: strategies that fail *)

Lemma slice_elem {A} (start finish : Z) (l : list A) (x : A) :
  x ∈ JS.slice start finish l -> x ∈ l.
Proof.
  unfold JS.slice. intros Hx.
  apply (sublist_subseteq _ _ (sublist_take _ _)) in Hx.
  now apply (sublist_subseteq _ _ (sublist_drop _ _)) in Hx.
Qed.

Lemma slice_nil {A} (start finish : Z) : JS.slice start finish (@nil A) = [].
Proof. unfold JS.slice. now rewrite skipn_nil, firstn_nil. Qed.

(** [Promise.allSettled] never rejects and settles every promise. *)
Lemma allSettled_total {A} (promises : list (M A)) (w : World) :
  exists outcomes w',
    allSettled promises w = (inr outcomes, w')
    /\ length outcomes = length promises.
Proof.
  revert w. induction promises as [|p rest IH]; intros w.
  - exists [], w. split; reflexivity.
  - simpl. destruct (p w) as [r w1].
    destruct (IH w1) as (others & w2 & -> & Hlen).
    eexists _, w2. split; [reflexivity|]. simpl. now rewrite Hlen.
Qed.

Lemma filter_fulfilled_idem {A} (allResults : list (Settled A)) :
  List.filter is_fulfilled (List.filter is_fulfilled allResults)
  = List.filter is_fulfilled allResults.
Proof.
  induction allResults as [|r l IH]; simpl; [reflexivity|].
  destruct (is_fulfilled r) eqn:E; simpl; [rewrite E|]; now rewrite ?IH.
Qed.

(** Only the fulfilled outcomes reach the merge. *)
Lemma mergeResults_fulfilled_only
    (allResults : list (Settled (list ElasticsearchSearchResult))) (limit : Z) :
  mergeResults allResults limit
  = mergeResults (List.filter is_fulfilled allResults) limit.
Proof.
  unfold mergeResults, combineResults. now rewrite filter_fulfilled_idem.
Qed.

Lemma filter_none_fulfilled {A} (allResults : list (Settled A)) :
  forallb (fun r => negb (is_fulfilled r)) allResults = true ->
  List.filter is_fulfilled allResults = [].
Proof.
  induction allResults as [|r l IH]; simpl; [reflexivity|].
  intros H. apply andb_true_iff in H as [Hr Hl].
  apply negb_true_iff in Hr. rewrite Hr. now apply IH.
Qed.

Lemma mergeResults_all_rejected
    (allResults : list (Settled (list ElasticsearchSearchResult))) (limit : Z) :
  forallb (fun r => negb (is_fulfilled r)) allResults = true ->
  mergeResults allResults limit = [].
Proof.
  intros H. unfold mergeResults, combineResults.
  rewrite filter_none_fulfilled by assumption. apply slice_nil.
Qed.

Lemma pool_elem (allResults : list (Settled (list ElasticsearchSearchResult)))
    (y : ElasticsearchSearchResult) :
  y ∈ pool allResults ->
  exists value, Fulfilled value ∈ allResults /\ y ∈ value.
Proof.
  unfold pool. intros Hy.
  apply list_elem_of_In, in_concat in Hy as (value & Hv & Hy).
  apply in_map_iff in Hv as (r & <- & Hr).
  apply filter_In in Hr as [Hr Hf].
  destruct r as [value|e]; [|discriminate].
  exists value. split; now apply list_elem_of_In.
Qed.

Lemma mergeResults_elem
    (allResults : list (Settled (list ElasticsearchSearchResult))) (limit : Z)
    (y : ElasticsearchSearchResult) :
  y ∈ mergeResults allResults limit ->
  exists value, Fulfilled value ∈ allResults /\ y ∈ value.
Proof.
  unfold mergeResults. intros Hy. apply slice_elem in Hy.
  rewrite combineResults_distinct in Hy.
  apply distinct_ids_elem in Hy as [_ Hf].
  apply pool_elem. apply list_elem_of_In.
  unfold first_with_id in Hf. now apply find_some in Hf.
Qed.

(** C6. A smart search on an existing tenant that may search exceptions
    answers with a success whatever the strategies do: the strategies are
    all settled, the response carries the merge of their outcomes, a
    rejected outcome is left out of the merge (every returned record comes
    from a fulfilled one), and when every outcome is rejected the result
    list is empty. *)
Theorem smartSearch_tolerates_failures
    (configManager : MultiTeamConfig) (store : Store) (now : Z)
    (team : string) (params : SearchExceptionsParams) (teamConfig : TeamConfig) :
  getTeamConfig configManager team = inr teamConfig ->
  operation_blocked teamConfig "search_exceptions" = false ->
  p_smartSearch params = true ->
  JS.truthy (JS.or_else (p_message params) (p_query params)) = true ->
  exists outcomes w payload,
    allSettled
      (searchPromises configManager store now team params
         (default EmptyString (JS.or_else (p_message params) (p_query params))))
      new_service = (inr outcomes, w)
    /\ searchExceptionsHandler configManager store now team params
       = (ToolSuccess payload, calls w)
    /\ out_results payload = mergeResults outcomes (p_limit params)
    /\ mergeResults outcomes (p_limit params)
       = mergeResults (List.filter is_fulfilled outcomes) (p_limit params)
    /\ (forall y, y ∈ out_results payload ->
          exists value, Fulfilled value ∈ outcomes /\ y ∈ value)
    /\ (forallb (fun r => negb (is_fulfilled r)) outcomes = true ->
        out_results payload = []).
Proof.
  intros Hteam Hallowed Hsmart Hterm.
  destruct (allSettled_total
              (searchPromises configManager store now team params
                 (default EmptyString (JS.or_else (p_message params) (p_query params))))
              new_service) as (outcomes & w & Hsettled & _).
  exists outcomes, w. eexists. split; [exact Hsettled|].
  unfold searchExceptionsHandler, respond, searchExceptionsBody, check_allowed,
    smartSearch, lift, mbind, M_bind, mret, M_ret.
  rewrite Hteam, Hallowed, Hsmart, Hterm. cbv beta iota. cbn [andb].
  rewrite Hsettled. cbv beta iota.
  split; [reflexivity|]. simpl.
  split; [reflexivity|].
  split; [apply mergeResults_fulfilled_only|].
  split; [intros y; apply mergeResults_elem|apply mergeResults_all_rejected].
Qed.

(** ** Trend of a service *)

Lemma Qlt_bool_iff (x y : Q) : Num.Qlt_bool x y = true <-> (x < y)%Q.
Proof.
  unfold Num.Qlt_bool. rewrite negb_true_iff.
  split.
  - intros H. apply Qnot_le_lt. intros Hle.
    apply Qle_bool_iff in Hle. congruence.
  - intros H. destruct (Qle_bool y x) eqn:E; [|reflexivity].
    apply Qle_bool_iff in E. exfalso. exact (Qlt_not_le _ _ H E).
Qed.

Lemma classify_fin (change : Q) :
  (classify (Fin change) = "increasing" <-> (inject_Z 10 < change)%Q)
  /\ (classify (Fin change) = "decreasing" <-> (change < inject_Z (-10))%Q)
  /\ (classify (Fin change) = "stable"
      <-> (inject_Z (-10) <= change /\ change <= inject_Z 10)%Q).
Proof.
  unfold classify, Num.gt, Num.lt, Num.of_Z.
  destruct (Num.Qlt_bool (inject_Z 10) change) eqn:Hup.
  - apply Qlt_bool_iff in Hup.
    assert (Hlow : ~ (change < inject_Z (-10))%Q).
    { intros H. apply (Qlt_irrefl change).
      eapply Qlt_trans; [exact H|]. eapply Qlt_trans; [|exact Hup]. reflexivity. }
    split; [tauto|]. split.
    + split; [discriminate|tauto].
    + split; [discriminate|].
      intros [_ H]. exfalso. exact (Qlt_not_le _ _ Hup H).
  - assert (Hle : (change <= inject_Z 10)%Q).
    { apply Qnot_lt_le. intros H. apply Qlt_bool_iff in H. congruence. }
    assert (Hnup : ~ (inject_Z 10 < change)%Q)
      by (intros H; exact (Qlt_not_le _ _ H Hle)).
    destruct (Num.Qlt_bool change (inject_Z (-10))) eqn:Hdown.
    + apply Qlt_bool_iff in Hdown.
      split; [split; [discriminate|tauto]|].
      split; [tauto|].
      split; [discriminate|].
      intros [H _]. exfalso. exact (Qlt_not_le _ _ Hdown H).
    + assert (Hge : (inject_Z (-10) <= change)%Q).
      { apply Qnot_lt_le. intros H. apply Qlt_bool_iff in H. congruence. }
      split; [split; [discriminate|tauto]|].
      split; [split; [discriminate|]|tauto].
      intros H. exfalso. exact (Qlt_not_le _ _ H Hge).
Qed.

(** The guarded division of the source never meets a zero divisor. *)
Lemma percentageChange_fin (firstHalfCount secondHalfCount : Z) :
  exists change : Q,
    percentageChange firstHalfCount secondHalfCount = Fin change
    /\ (change == spec_percentageChange firstHalfCount secondHalfCount)%Q.
Proof.
  unfold percentageChange, spec_percentageChange.
  destruct (0 <? firstHalfCount) eqn:Hpos.
  - apply Z.ltb_lt in Hpos.
    unfold Num.of_Z, Num.sub, Num.div, Num.mul.
    assert (Hnz : Qeq_bool (inject_Z firstHalfCount) 0 = false).
    { destruct (Qeq_bool (inject_Z firstHalfCount) 0) eqn:E; [|reflexivity].
      apply Qeq_bool_iff in E. unfold Qeq in E. simpl in E. lia. }
    rewrite Hnz. eexists. split; reflexivity.
  - exists (inject_Z 0). split; reflexivity.
Qed.



(** ** Result size and time window of the exception search *)

Lemma timeframe_table_lookup (timeframe : string) :
  timeframe_table !! timeframe
  = if String.eqb timeframe "1h" then Some 1
    else if String.eqb timeframe "6h" then Some 6
    else if String.eqb timeframe "12h" then Some 12
    else if String.eqb timeframe "24h" then Some 24
    else if String.eqb timeframe "7d" then Some 168
    else None.
Proof.
  unfold timeframe_table. simpl.
  repeat match goal with
         | |- context [String.eqb timeframe ?s] =>
             destruct (String.eqb_spec timeframe s) as [->|?];
             [vm_compute; reflexivity
             |cbv iota; rewrite lookup_insert_ne by congruence]
         end.
  apply lookup_empty.
Qed.

(** The duration table of the timeframe-driven operations
    ([searchFrequentExceptions], [searchExceptionsByContext],
    [analyzeSpecificException], [getServiceExceptionTrends]): the five
    tokens map to 1, 6, 12, 24 and 168 hours, any other token to 24, and
    the window runs from that many hours before now up to now. *)
Lemma timeframe_window (now : Z) (timeframe : string) :
  timeRangeHours "1h" = 1 /\ timeRangeHours "6h" = 6
  /\ timeRangeHours "12h" = 12 /\ timeRangeHours "24h" = 24
  /\ timeRangeHours "7d" = 168
  /\ (timeframe ∉ timeframe_enum -> timeRangeHours timeframe = 24)
  /\ timeframe_range now timeframe
     = RangeTimestamp (Formatted (now - timeRangeHours timeframe * 3600000))
                      (Some (Formatted now)).
Proof.
  repeat (split; [vm_compute; reflexivity|]).
  split.
  - intros Hout. unfold timeRangeHours. rewrite timeframe_table_lookup.
    unfold timeframe_enum in Hout.
    repeat match goal with
           | |- context [String.eqb timeframe ?s] =>
               destruct (String.eqb_spec timeframe s) as [->|?];
               [exfalso; apply Hout; set_solver|cbv iota]
           end.
    reflexivity.
  - unfold timeframe_range, timeRangeStart. do 2 f_equal. lia.
Qed.

(** Whole days are 24 hours each. *)
Lemma subDays_days (date : Z) (days : positive) :
  DateFns.subDays date (Z.pos days # 1) = date - Z.pos days * 24 * 3600000.
Proof.
  unfold DateFns.subDays, DateFns.toInteger, DateFns.MS_PER_DAY.
  change (Num.Qlt_bool (Z.pos days # 1) 0) with false. cbv iota.
  change (Z.pos days # 1) with (inject_Z (Z.pos days)).
  rewrite Qfloor_Z. lia.
Qed.

(** A fraction of a day below one is no day at all. *)
Lemma subDays_fraction (date : Z) : DateFns.subDays date (4 # 100) = date.
Proof.
  unfold DateFns.subDays. change (DateFns.toInteger (4 # 100)) with 0. lia.
Qed.

(** C1. The size [searchExceptions] asks of the store is the tenant's
    [maxSearchResults] (50 when unset or 0) whatever limit the caller
    gives. For the tenant "alpha" (maximum 50) and a request for at most 5
    exceptions the store is asked for 50, not [min 5 50], and the answer
    carries the 7 records the cluster holds. *)
Theorem searchExceptions_size_ignores_limit :
  (forall now teamConfig filters,
     sp_size (searchExceptions_params now teamConfig filters)
     = JS.num_or (maxSearchResults teamConfig) 50)
  /\ exists params payload request,
       searchExceptionsSchema five_of_last_hour = Some params
       /\ p_limit params = 5
       /\ searchExceptionsHandler sample_config sample_store 1714557600000
            "alpha" params
          = (ToolSuccess payload, [SearchCall "alpha:production" request])
       /\ sp_size request = 50
       /\ Z.min (p_limit params) 50 = 5
       /\ out_totalResults payload = 7.
Proof.
  split; [reflexivity|].
  do 3 eexists. repeat split; vm_compute; reflexivity.
Qed.

(** C2. With no [timeRange], the time filter of [searchExceptions] is the
    open-ended range from one day before now, whatever [timeframe] the
    request carries: for the token "1h" it is not the window
    [[now - 1h, now]] the timeframe-driven operations compute. *)
Theorem searchExceptions_ignores_timeframe
    (now : Z) (timeframe env severity svc msg : option string)
    (limit : option Z) (sort : option bool) :
  hd_error (filter (searchExceptions_query now
              {| sf_environment := env; sf_timeRange := None;
                 sf_timeframe := timeframe; sf_severity := severity;
                 sf_service := svc; sf_message := msg;
                 sf_limit := limit; sf_sortByFrequency := sort |}))
  = Some (RangeTimestamp (Formatted (now - 24 * 3600000)) None)
  /\ timeframe_range now "1h"
     = RangeTimestamp (Formatted (now - 1 * 3600000)) (Some (Formatted now))
  /\ RangeTimestamp (Formatted (now - 24 * 3600000)) None
     <> timeframe_range now "1h".
Proof.
  split; [|split].
  - unfold searchExceptions_query, time_filter.
    cbn [filter sf_timeRange hd_error app]. now rewrite subDays_days.
  - reflexivity.
  - discriminate.
Qed.

(** C3. With neither [timeRange] nor [timeframe], the exception search
    filters from 24 hours before now and the aggregate analysis from 7 days
    before now; the log search filters from [subDays(now, 0.04)], which is
    now itself and not one hour before now. *)
Theorem default_windows (now : Z) (teamConfig : TeamConfig) :
  filter (searchExceptions_query now no_filters)
  = [RangeTimestamp (Formatted (now - 24 * 3600000)) None]
  /\ filter (sp_query (analyzeExceptions_params now teamConfig no_filters))
     = [RangeTimestamp (Formatted (now - 168 * 3600000)) None]
  /\ filter (searchLogs_query now no_filters)
     = [RangeTimestamp (Formatted now) None]
  /\ RangeTimestamp (Formatted now) None
     <> RangeTimestamp (Formatted (now - 1 * 3600000)) None.
Proof.
  unfold searchExceptions_query, analyzeExceptions_params, searchLogs_query,
    time_filter, service_filter, no_filters.
  cbn [filter sp_query sf_timeRange sf_severity sf_service JS.truthy app].
  rewrite !subDays_days, subDays_fraction.
  split; [|split; [|split]]; try reflexivity.
  intros H. injection H. lia.
Qed.

(** Had [subDays] honoured the fraction, 0.04 of a day would be 3 456 000
    ms, still not the 3 600 000 ms of an hour. *)
Remark fraction_of_day_not_hour :
  ((4 # 100) * inject_Z DateFns.MS_PER_DAY == inject_Z 3456000)%Q
  /\ 3456000 <> 1 * 3600000.
Proof. split; [reflexivity|lia]. Qed.

(** ** Trend over a histogram *)

Lemma slice_from_drop {A} (k : Z) (l : list A) :
  0 <= k <= Z.of_nat (length l) -> slice_from k l = skipn (Z.to_nat k) l.
Proof.
  intros Hk. unfold slice_from, JS.slice.
  destruct (k <? 0) eqn:E; [apply Z.ltb_lt in E; lia|].
  destruct (Z.of_nat (length l) <? 0) eqn:E'; [apply Z.ltb_lt in E'; lia|].
  rewrite (Z.min_l k) by lia. rewrite Z.min_id.
  apply firstn_all2. rewrite length_skipn. lia.
Qed.

(** The two halves of [determineTrend] make up the sequence, and the
    second one is the longer on an odd length. *)
Lemma determineTrend_halves (timeDistribution : list HistogramBucket) :
  let len := Z.of_nat (length timeDistribution) in
  let firstHalf := JS.slice 0 (len / 2) timeDistribution in
  let secondHalf := slice_from (len / 2) timeDistribution in
  firstHalf ++ secondHalf = timeDistribution
  /\ Z.of_nat (length firstHalf) = len / 2
  /\ Z.of_nat (length secondHalf) = len / 2 + len mod 2.
Proof.
  intros len firstHalf secondHalf. subst firstHalf secondHalf.
  assert (H2 : 0 <= len / 2 <= len).
  { subst len. split; [apply Z.div_pos; lia|].
    apply Z.div_le_upper_bound; lia. }
  rewrite slice_prefix by lia. rewrite slice_from_drop by (subst len; lia).
  split; [apply firstn_skipn|].
  rewrite length_firstn, length_skipn.
  pose proof (Z.div_mod len 2 ltac:(lia)) as Hdm.
  subst len. split; lia.
Qed.

Lemma determineTrend_short (timeDistribution : list HistogramBucket) :
  (length timeDistribution < 2)%nat -> determineTrend timeDistribution = "stable".
Proof.
  intros H. unfold determineTrend.
  destruct (Z.of_nat (length timeDistribution) <? 2) eqn:E; [reflexivity|].
  apply Z.ltb_ge in E. lia.
Qed.

Lemma average_fin (buckets : list HistogramBucket) :
  buckets <> [] ->
  average buckets
  = Fin (inject_Z (sum_doc_count buckets) / inject_Z (Z.of_nat (length buckets))).
Proof.
  intros Hne. unfold average, Num.div, Num.of_Z.
  destruct (Qeq_bool (inject_Z (Z.of_nat (length buckets))) 0) eqn:E; [|reflexivity].
  apply Qeq_bool_iff in E. unfold Qeq in E. simpl in E.
  destruct buckets; [congruence|simpl in E; lia].
Qed.

(** Without the guard of [getServiceExceptionTrends], a first half that
    counts nothing makes the change [Infinity] as soon as the second half
    counts something, and the trend "increasing". *)
Lemma determineTrend_from_zero (timeDistribution : list HistogramBucket) :
  let len := Z.of_nat (length timeDistribution) in
  2 <= len ->
  sum_doc_count (JS.slice 0 (len / 2) timeDistribution) = 0 ->
  0 < sum_doc_count (slice_from (len / 2) timeDistribution) ->
  determineTrend timeDistribution = "increasing".
Proof.
  intros len Hlen Hfirst Hsecond.
  destruct (determineTrend_halves timeDistribution) as (_ & Hl1 & Hl2).
  fold len in Hl1, Hl2.
  assert (Hhalf : 1 <= len / 2) by (apply Z.div_le_lower_bound; lia).
  pose proof (Z.mod_pos_bound len 2 ltac:(lia)) as Hmod.
  unfold determineTrend. fold len.
  destruct (len <? 2) eqn:E; [apply Z.ltb_lt in E; lia|].
  rewrite !average_fin
    by (intros Hnil; rewrite Hnil in *; simpl in *; lia).
  rewrite Hfirst.
  set (n1 := Z.of_nat (length (JS.slice 0 (len / 2) timeDistribution))) in *.
  set (n2 := Z.of_nat (length (slice_from (len / 2) timeDistribution))) in *.
  set (total := sum_doc_count (slice_from (len / 2) timeDistribution)) in *.
  assert (Hzero : (inject_Z 0 / inject_Z n1 == 0)%Q).
  { unfold Qdiv. now rewrite Qmult_0_l. }
  assert (Hpos : (0 < inject_Z total / inject_Z n2)%Q).
  { apply Qlt_shift_div_l.
    - change 0%Q with (inject_Z 0). rewrite <- Zlt_Qlt. lia.
    - rewrite Qmult_0_l. change 0%Q with (inject_Z 0). rewrite <- Zlt_Qlt. lia. }
  unfold Num.sub, Num.div.
  rewrite (proj2 (Qeq_bool_iff _ _) Hzero).
  unfold Num.signed_inf.
  assert (Hgt : (inject_Z total / inject_Z n2 - inject_Z 0 / inject_Z n1 ?= 0)%Q = Gt).
  { apply Qgt_alt. rewrite Hzero. unfold Qminus.
    rewrite Qplus_0_r. exact Hpos. }
  rewrite Hgt. reflexivity.
Qed.

(** C4. On the two buckets with counts 0 and 5 the first half averages 0
    and [determineTrend] answers "increasing", where the guarded rule of
    [getServiceExceptionTrends] gives the change 0 and "stable"; the
    same happens on the four buckets 0, 0, 3, 4. *)
Theorem determineTrend_zero_first_half :
  average (JS.slice 0 1 (histogram [0; 5])) = Fin (0 # 1)
  /\ determineTrend (histogram [0; 5]) = "increasing"
  /\ classify (percentageChange 0 5) = "stable"
  /\ determineTrend (histogram [0; 0; 3; 4]) = "increasing".
Proof. repeat split; vm_compute; reflexivity. Qed.

(** ** Configuration problems *)

Lemma getTeamConfig_known (config : MultiTeamConfig) (team : string)
    (teamConfig : TeamConfig) :
  teams config !! team = Some teamConfig ->
  getTeamConfig config team = inr teamConfig.
Proof. intros H. unfold getTeamConfig. now rewrite H. Qed.

Lemma getTeamConfig_unknown (config : MultiTeamConfig) (team : string) :
  teams config !! team = None ->
  getTeamConfig config team = inl (TeamNotFound team).
Proof. intros H. unfold getTeamConfig. now rewrite H. Qed.


Section ServiceProblems.

Variable config : MultiTeamConfig.
Variable store : Store.
Variable now : Z.
Variable team : string.
Variable teamConfig : TeamConfig.
Hypothesis Hteam : teams config !! team = Some teamConfig.










End ServiceProblems.

(** An unknown tenant stops every handler at its first step. *)
Lemma unknown_team_fatal (config : MultiTeamConfig) (store : Store) (now : Z)
    (team : string) (request : Request) :
  teams config !! team = None ->
  handle config store now team request = (Some (TeamNotFound team), []).
Proof.
  intros Hnone.
  destruct request; unfold handle, searchExceptionsHandler,
    analyzeExceptionHandler, analyzeTrendsHandler, searchLogsHandler,
    testConnectionHandler, respond, searchExceptionsBody, analyzeExceptionBody,
    analyzeTrendsBody, searchLogsBody, testConnectionBody, lift, mbind, M_bind;
    rewrite (getTeamConfig_unknown _ _ Hnone); reflexivity.
Qed.


(** ** Operation governance *)

Section Raises.

Context {A B : Type}.
Variable P : Error -> Prop.

Lemma raises_ret (a : A) : raises_only P (mret a).
Proof. intros w e w' H. discriminate. Qed.

Lemma raises_throw (e : Error) : P e -> raises_only P (@throw A e).
Proof. intros He w e' w' H. injection H as <- _. exact He. Qed.

Lemma raises_bind (m : M A) (k : A -> M B) :
  raises_only P m -> (forall a, raises_only P (k a)) ->
  raises_only P (m ≫= k).
Proof.
  intros Hm Hk w e w' H. unfold mbind, M_bind in H.
  destruct (m w) as [[e1|a] w1] eqn:Hrun.
  - injection H as <- _. exact (Hm _ _ _ Hrun).
  - exact (Hk a _ _ _ H).
Qed.

Lemma raises_try_catch (body : M A) (handler : Error -> M A) :
  (forall e, raises_only P (handler e)) ->
  raises_only P (try_catch body handler).
Proof.
  intros Hh w e w' H. unfold try_catch in H.
  destruct (body w) as [[e1|a] w1]; [exact (Hh _ _ _ _ H)|discriminate].
Qed.

End Raises.

Lemma raises_allSettled {A} (P : Error -> Prop) (promises : list (M A)) :
  raises_only P (allSettled promises).
Proof.
  intros w e w' H.
  destruct (allSettled_total promises w) as (outcomes & w1 & Hrun & _).
  congruence.
Qed.

Lemma raises_getTeamConfig (config : MultiTeamConfig) (team : string) :
  raises_only not_a_denial (lift (getTeamConfig config team)).
Proof.
  intros w e w' H. unfold lift, getTeamConfig in H.
  destruct (teams config !! team); [discriminate|].
  injection H as <- _. reflexivity.
Qed.

Lemma raises_getClient (config : MultiTeamConfig) (team : string)
    (requested : option string) :
  raises_only not_a_denial (getClient config team requested).
Proof.
  unfold getClient. apply raises_bind; [apply raises_getTeamConfig|].
  intros teamConfig w e w' H.
  destruct (negb _); [injection H as <- _; reflexivity|].
  destruct (environments teamConfig !! _); [|injection H as <- _; reflexivity].
  destruct (clients w !! _); discriminate.
Qed.

Lemma raises_client_search (store : Store) (clientKey : string)
    (params : SearchParams) :
  raises_only not_a_denial (client_search store clientKey params).
Proof.
  intros w e w' H. unfold client_search in H.
  destruct (es_search store clientKey params); [|discriminate].
  injection H as <- _. reflexivity.
Qed.

Lemma raises_client_ping (store : Store) (clientKey : string) :
  raises_only not_a_denial (client_ping store clientKey).
Proof.
  intros w e w' H. unfold client_ping in H.
  destruct (es_ping store clientKey); [|discriminate].
  injection H as <- _. reflexivity.
Qed.

Ltac no_denial :=
  repeat first
    [ apply raises_getTeamConfig
    | apply raises_getClient
    | apply raises_client_search
    | apply raises_client_ping
    | apply raises_allSettled
    | apply raises_ret
    | apply raises_throw; reflexivity
    | apply raises_try_catch; intros ?
    | apply raises_bind; [|intros ?] ].

Section NeverDenies.

Variable config : MultiTeamConfig.
Variable store : Store.
Variable now : Z.
Variable team : string.

(** The service itself never denies an operation. *)
Lemma searchExceptions_no_denial (filters : SearchFilters) :
  raises_only not_a_denial (searchExceptions config store now team filters).
Proof. unfold searchExceptions. no_denial. Qed.

Lemma searchLogs_no_denial (filters : SearchFilters) :
  raises_only not_a_denial (searchLogs config store now team filters).
Proof. unfold searchLogs. no_denial. Qed.

Lemma analyzeExceptions_no_denial (filters : SearchFilters) :
  raises_only not_a_denial (analyzeExceptions config store now team filters).
Proof. unfold analyzeExceptions. no_denial. Qed.

Lemma analyzeSpecificException_no_denial (msg : string)
    (timeframe : option string) (filters : SearchFilters) :
  raises_only not_a_denial
    (analyzeSpecificException config store now team msg timeframe filters).
Proof. unfold analyzeSpecificException. no_denial. Qed.

Lemma getServiceExceptionTrends_no_denial (timeframe : option string)
    (filters : SearchFilters) :
  raises_only not_a_denial
    (getServiceExceptionTrends config store now team timeframe filters).
Proof. unfold getServiceExceptionTrends. no_denial. Qed.

Lemma testConnection_no_denial (env : option string) :
  raises_only not_a_denial (testConnection config store team env).
Proof. unfold testConnection. no_denial. Qed.

Lemma smartSearch_no_denial (params : SearchExceptionsParams) (term : string) :
  raises_only not_a_denial (smartSearch config store now team params term).
Proof. unfold smartSearch. no_denial. Qed.

End NeverDenies.

Ltac no_service_denial :=
  repeat first
    [ apply searchExceptions_no_denial
    | apply searchLogs_no_denial
    | apply analyzeExceptions_no_denial
    | apply analyzeSpecificException_no_denial
    | apply getServiceExceptionTrends_no_denial
    | apply testConnection_no_denial
    | apply smartSearch_no_denial
    | apply raises_ret
    | apply raises_bind; [|intros ?] ].

Lemma respond_error {A} (body : M A) (e : Error) :
  fst (let '(r, trace) := respond body in (tool_error r, trace)) = Some e ->
  exists w', body new_service = (inl e, w').
Proof.
  unfold respond. destruct (body new_service) as [[e'|a] w']; simpl.
  - intros [= ->]. now exists w'.
  - discriminate.
Qed.

Lemma raises_after_lookup {A B} (P : Error -> Prop) (r : Error + A) (a : A)
    (k : A -> M B) :
  r = inr a -> raises_only P (k a) -> raises_only P (lift r ≫= k).
Proof. intros -> Hk w e w' H. exact (Hk _ _ _ H). Qed.

Lemma raises_after_gate {B} (P : Error -> Prop) (teamConfig : TeamConfig)
    (operation team : string) (k : unit -> M B) :
  operation_blocked teamConfig operation = false ->
  raises_only P (k tt) ->
  raises_only P (check_allowed teamConfig operation team ≫= k).
Proof.
  intros Hopen Hk w e w' H. unfold check_allowed in H. rewrite Hopen in H.
  exact (Hk _ _ _ H).
Qed.

(** Past the gate no handler denies. *)
Lemma handler_no_denial (config : MultiTeamConfig) (store : Store) (now : Z)
    (team : string) (request : Request) (teamConfig : TeamConfig)
    (e : Error) :
  teams config !! team = Some teamConfig ->
  operation_blocked teamConfig (operation_name request) = false ->
  fst (handle config store now team request) = Some e ->
  not_a_denial e.
Proof.
  intros Hteam Hopen Herr.
  pose proof (getTeamConfig_known _ _ _ Hteam) as Hconfig.
  destruct request as [params|env msg timeframe|params|env msg svc range|env];
    cbn [handle operation_name] in *;
    apply respond_error in Herr as (w' & Hrun);
    match type of Hrun with
    | ?body new_service = _ =>
        cut (raises_only not_a_denial body);
        [intros Hbody; exact (Hbody _ _ _ Hrun)|]
    end;
    unfold searchExceptionsBody, analyzeExceptionBody, analyzeTrendsBody,
      searchLogsBody, testConnectionBody;
    (eapply raises_after_lookup; [exact Hconfig|]);
    try (eapply raises_after_gate; [exact Hopen|]).
  - destruct (p_smartSearch params && _); no_service_denial.
  - no_service_denial.
  - destruct (at_analysisType params);
      cbn [wants_exceptions wants_services]; no_service_denial.
  - no_service_denial.
  - no_service_denial.
Qed.

(** A request is denied only when the tenant's list is set and lacks the
    name of the operation; with the list unset nothing is denied. *)
Lemma denial_only_when_blocked (config : MultiTeamConfig) (store : Store)
    (now : Z) (team : string) (request : Request) (e : Error) :
  fst (handle config store now team request) = Some e ->
  isNotPermittedError e = true ->
  exists teamConfig allowed,
    teams config !! team = Some teamConfig
    /\ allowedOperations teamConfig = Some allowed
    /\ array_includes allowed (operation_name request) = false.
Proof.
  intros Herr Hdenied.
  destruct (teams config !! team) as [teamConfig|] eqn:Hteam.
  - destruct (operation_blocked teamConfig (operation_name request)) eqn:Hgate.
    + unfold operation_blocked in Hgate.
      destruct (allowedOperations teamConfig) as [allowed|] eqn:Hlist;
        [|discriminate].
      exists teamConfig, allowed. apply negb_true_iff in Hgate. tauto.
    + pose proof (handler_no_denial _ _ _ _ _ _ _ Hteam Hgate Herr) as Hno.
      unfold not_a_denial in Hno. congruence.
  - rewrite (unknown_team_fatal _ _ _ _ _ Hteam) in Herr.
    injection Herr as <-. discriminate.
Qed.

(** The four gated handlers deny a blocked operation before the service
    is used. *)
Lemma blocked_operation_denied (config : MultiTeamConfig) (store : Store)
    (now : Z) (team : string) (request : Request) (teamConfig : TeamConfig) :
  teams config !! team = Some teamConfig ->
  operation_blocked teamConfig (operation_name request) = true ->
  match request with
  | TestConnectionRequest _ => True
  | _ => handle config store now team request
         = (Some (OperationNotAllowed (operation_name request) team), [])
  end.
Proof.
  intros Hteam Hblocked.
  pose proof (getTeamConfig_known _ _ _ Hteam) as Hconfig.
  destruct request; [| | | |exact I];
    cbn [operation_name] in Hblocked;
    unfold handle, searchExceptionsHandler, analyzeExceptionHandler,
      analyzeTrendsHandler, searchLogsHandler, respond, searchExceptionsBody,
      analyzeExceptionBody, analyzeTrendsBody, searchLogsBody, check_allowed,
      lift, mbind, M_bind;
    rewrite Hconfig, Hblocked; reflexivity.
Qed.

(** The connection test has no gate: on a known tenant it never fails,
    whatever the tenant's list says. *)
Lemma testConnection_ungated (config : MultiTeamConfig) (store : Store)
    (now : Z) (team : string) (env : option string) (teamConfig : TeamConfig) :
  teams config !! team = Some teamConfig ->
  fst (handle config store now team (TestConnectionRequest env)) = None.
Proof.
  intros Hteam. cbn [handle].
  unfold testConnectionHandler, respond, testConnectionBody, testConnection,
    try_catch, lift, mbind, M_bind, mret, M_ret.
  rewrite (getTeamConfig_known _ _ _ Hteam).
  destruct (getClient config team env new_service) as [[e|client] w];
    [reflexivity|].
  destruct (client_ping store client w) as [[e|connected] w']; reflexivity.
Qed.

(** C9. The tenant "alpha" may only search exceptions, so the gate blocks
    "test_connection" as it blocks "search_logs"; the log search is denied
    before any call to the store, but the connection test is not checked
    against the list: it pings the cluster and answers with a success. *)
Theorem testConnection_not_governed :
  operation_blocked sample_team "test_connection" = true
  /\ operation_blocked sample_team "search_logs" = true
  /\ handle sample_config sample_store 1714557600000 "alpha"
       (SearchLogsRequest None None None None)
     = (Some (OperationNotAllowed "search_logs" "alpha"), [])
  /\ testConnectionHandler sample_config sample_store "alpha" None
     = (ToolSuccess {| cp_teamId := "alpha";
                       cp_environment := Some "production";
                       cp_connected := true |},
        [PingCall "alpha:production"]).
Proof. repeat split; vm_compute; reflexivity. Qed.

(** ** The theorems at work on the sample tenant *)

Example mergeResults_overlapping :
  mergeResults overlapping 20
  = [sample_record "1" "phrase"; sample_record "2" "phrase";
     sample_record "3" "terms"]
  /\ mergeResults overlapping 2
     = [sample_record "1" "phrase"; sample_record "2" "phrase"].
Proof. split; vm_compute; reflexivity. Qed.

(** The merge theorem on the two overlapping strategies, truncated to 2. *)
Lemma mergeResults_spec_witness :
  0 <= 2
  /\ NoDup (List.map id (mergeResults overlapping 2))
  /\ Z.of_nat (length (mergeResults overlapping 2)) <= 2.
Proof.
  assert (Hlimit : 0 <= 2) by lia.
  pose proof (mergeResults_spec overlapping 2 Hlimit) as H.
  cbv zeta in H.
  split; [exact Hlimit|].
  split; [exact (proj1 (proj2 (proj2 (proj2 (proj2 H)))))
         |exact (proj2 (proj2 (proj2 (proj2 (proj2 H)))))].
Defined.

(** With the cluster unreachable all three strategies of a smart search
    fail, after one call each, and the answer is a success without
    records. *)
Example smartSearch_all_strategies_fail :
  exists c1 c2 c3,
    searchExceptionsHandler sample_config unreachable_store 1714557600000
      "alpha" (smart_request None "NullPointerException in UserService")
    = (ToolSuccess {| out_teamId := "alpha";
                      out_environment := Some "production";
                      out_totalResults := 0;
                      out_results := [] |},
       [SearchCall "alpha:production" c1; SearchCall "alpha:production" c2;
        SearchCall "alpha:production" c3]).
Proof. do 3 eexists. vm_compute. reflexivity. Qed.

(** The tolerance theorem on the tenant "alpha" with the cluster
    unreachable. *)
Lemma smartSearch_tolerates_failures_witness :
  exists outcomes w payload,
    allSettled
      (searchPromises sample_config unreachable_store 1714557600000 "alpha"
         (smart_request None "NullPointerException in UserService")
         "NullPointerException in UserService")
      new_service = (inr outcomes, w)
    /\ searchExceptionsHandler sample_config unreachable_store 1714557600000
         "alpha" (smart_request None "NullPointerException in UserService")
       = (ToolSuccess payload, calls w)
    /\ out_results payload = mergeResults outcomes 20.
Proof.
  destruct (smartSearch_tolerates_failures sample_config unreachable_store
              1714557600000 "alpha"
              (smart_request None "NullPointerException in UserService")
              sample_team eq_refl eq_refl eq_refl eq_refl)
    as (outcomes & w & payload & Hsettled & Hhandler & Hresults & _).
  exists outcomes, w, payload.
  split; [exact Hsettled|]. split; [exact Hhandler|exact Hresults].
Defined.


(** So does a smart search on the missing environment: it answers with an
    empty result list. *)
Example smartSearch_missing_environment :
  searchExceptionsHandler sample_config sample_store 1714557600000 "gamma"
    (smart_request (Some "staging") "timeout")
  = (ToolSuccess {| out_teamId := "gamma";
                    out_environment := Some "staging";
                    out_totalResults := 0;
                    out_results := [] |}, []).
Proof. vm_compute. reflexivity. Qed.


(** ** More on key terms and the strategies of a smart search *)

Lemma term_char_fixed (c : ascii) :
  is_term_char c || JS.is_space c = true ->
  JS.char_toLowerCase c = c /\ JS.blank_special c = c.
Proof.
  destruct c as [[] [] [] [] [] [] [] []]; vm_compute; intros H;
    first [discriminate H|split; reflexivity].
Qed.

Lemma term_char_no_space (c : ascii) :
  is_term_char c = true -> JS.is_space c = false.
Proof.
  destruct c as [[] [] [] [] [] [] [] []]; vm_compute; intros H;
    first [discriminate H|reflexivity].
Qed.

Lemma normalise_fixed (s : string) :
  all_chars (fun c => is_term_char c || JS.is_space c) s = true ->
  JS.replace_special (JS.toLowerCase s) = s.
Proof.
  unfold JS.replace_special, JS.toLowerCase.
  induction s as [|c s IH]; intros H; [reflexivity|].
  cbn [all_chars] in H. apply andb_true_iff in H as [Hc Hs].
  cbn [JS.string_map]. destruct (term_char_fixed c Hc) as [-> ->].
  now rewrite IH.
Qed.

Lemma append_nil_l (s : string) : String.append EmptyString s = s.
Proof. reflexivity. Qed.

Lemma append_cons (c : ascii) (t s : string) :
  String.append (String c t) s = String c (String.append t s).
Proof. reflexivity. Qed.

Lemma all_chars_append (p : ascii -> bool) (s t : string) :
  all_chars p (String.append s t) = all_chars p s && all_chars p t.
Proof.
  induction s as [|c s IH]; [reflexivity|].
  rewrite append_cons. cbn [all_chars]. now rewrite IH, andb_assoc.
Qed.

Lemma all_chars_weaken (p q : ascii -> bool) (s : string) :
  (forall c, p c = true -> q c = true) ->
  all_chars p s = true -> all_chars q s = true.
Proof.
  intros Hpq. induction s as [|c s IH]; simpl; [reflexivity|].
  intros H. apply andb_true_iff in H as [Hc Hs].
  now rewrite (Hpq c Hc), IH.
Qed.

Lemma split_spaces_nonempty (s : string) : JS.split_spaces s <> [].
Proof.
  induction s as [|c s IH]; [discriminate|].
  simpl. destruct (JS.is_space c).
  - destruct s as [|c' s']; [discriminate|].
    destruct (JS.is_space c'); [exact IH|discriminate].
  - destruct (JS.split_spaces s); discriminate.
Qed.

(** A word without white space in front of a string joins the first piece
    of its split. *)
Lemma split_spaces_word (t s : string) :
  all_chars is_term_char t = true ->
  JS.split_spaces (String.append t s)
  = match JS.split_spaces s with
    | piece :: pieces => String.append t piece :: pieces
    | [] => [t]
    end.
Proof.
  induction t as [|c t IH]; intros Ht.
  - rewrite append_nil_l. pose proof (split_spaces_nonempty s).
    destruct (JS.split_spaces s); [congruence|reflexivity].
  - cbn [all_chars] in Ht. apply andb_true_iff in Ht as [Hc Ht].
    rewrite append_cons. cbn [JS.split_spaces].
    rewrite (term_char_no_space c Hc), (IH Ht).
    destruct (JS.split_spaces s); reflexivity.
Qed.

Lemma append_empty (t : string) : String.append t EmptyString = t.
Proof.
  induction t as [|c t IH]; [reflexivity|]. now rewrite append_cons, IH.
Qed.

(** Joining words with spaces and splitting again gives the words back. *)
Lemma split_join (terms : list string) :
  terms <> [] ->
  Forall (fun t => t <> EmptyString /\ all_chars is_term_char t = true) terms ->
  JS.split_spaces (JS.join_space terms) = terms.
Proof.
  induction terms as [|t terms IH]; intros Hne Hall; [congruence|].
  inversion Hall as [|? ? [Ht Hchars] Hrest]; subst.
  destruct terms as [|u terms].
  - simpl. rewrite <- (append_empty t) at 1.
    rewrite split_spaces_word by assumption. simpl. now rewrite append_empty.
  - change (JS.join_space (t :: u :: terms))
      with (String.append t (String.append " " (JS.join_space (u :: terms)))).
    rewrite split_spaces_word by assumption.
    assert (Hrec : JS.split_spaces (JS.join_space (u :: terms)) = u :: terms)
      by (apply IH; [discriminate|assumption]).
    inversion Hrest as [|? ? [Hu Huchars] _]; subst.
    assert (Hhead : exists c rest, JS.join_space (u :: terms) = String c rest
                                   /\ JS.is_space c = false).
    { destruct u as [|c u']; [congruence|].
      cbn [all_chars] in Huchars. apply andb_true_iff in Huchars as [Hc _].
      exists c. destruct terms; simpl; eexists; (split; [reflexivity|]);
        now apply term_char_no_space. }
    destruct Hhead as (c & rest & Heq & Hc).
    change (String.append " " (JS.join_space (u :: terms)))
      with (String " " (JS.join_space (u :: terms))).
    cbn [JS.split_spaces].
    change (JS.is_space " ") with true. cbv iota.
    rewrite Heq at 1. rewrite Hc. rewrite Hrec.
    now rewrite append_empty.
Qed.

Lemma first_seen_distinct (seen l : list string) :
  NoDup l -> (forall x, x ∈ l -> x ∉ seen) -> first_seen seen l = l.
Proof.
  revert seen. induction l as [|x l IH]; intros seen Hnd Hfresh; [reflexivity|].
  apply NoDup_cons in Hnd as [Hx Hnd]. simpl.
  rewrite bool_decide_eq_false_2 by (apply Hfresh; now left).
  f_equal. apply IH; [assumption|].
  intros y Hy Hin. apply elem_of_app in Hin as [Hin|Hin].
  - apply (Hfresh y); [now right|assumption].
  - apply list_elem_of_singleton in Hin. congruence.
Qed.

Lemma filter_all {A} (p : A -> bool) (l : list A) :
  Forall (fun x => p x = true) l -> List.filter p l = l.
Proof.
  induction 1 as [|x l Hx _ IH]; simpl; [reflexivity|].
  now rewrite Hx, IH.
Qed.

Lemma first_seen_cover (seen l : list string) (x : string) :
  x ∈ l -> x ∈ seen \/ x ∈ first_seen seen l.
Proof.
  revert seen. induction l as [|y l IH]; intros seen Hx.
  - now apply elem_of_nil in Hx.
  - simpl. apply elem_of_cons in Hx as [->|Hx].
    + destruct (decide (y ∈ seen)) as [Hy|Hy]; [now left|].
      rewrite bool_decide_eq_false_2 by assumption. right. now left.
    + destruct (IH (seen ++ [y]) Hx) as [Hs|Hr].
      * apply elem_of_app in Hs as [Hs|Hs]; [now left|].
        apply list_elem_of_singleton in Hs. subst x.
        destruct (decide (y ∈ seen)) as [Hy|Hy]; [now left|].
        rewrite bool_decide_eq_false_2 by assumption. right. now left.
      * right. destruct (bool_decide (y ∈ seen)); [exact Hr|now right].
Qed.

Lemma join_space_chars (terms : list string) :
  Forall (fun t => all_chars is_term_char t = true) terms ->
  all_chars (fun c => is_term_char c || JS.is_space c) (JS.join_space terms) = true.
Proof.
  assert (Hword : forall t, all_chars is_term_char t = true ->
            all_chars (fun c => is_term_char c || JS.is_space c) t = true).
  { intros t. apply all_chars_weaken. intros c Hc. now rewrite Hc. }
  induction 1 as [|t terms Ht Hrest IH]; [reflexivity|].
  destruct terms as [|u terms]; [now apply Hword|].
  change (JS.join_space (t :: u :: terms))
    with (String.append t (String.append " " (JS.join_space (u :: terms)))).
  now rewrite !all_chars_append, IH, Hword.
Qed.

(** A list of at most five distinct admissible terms is what the extraction
    returns on its own join. *)
Lemma key_terms_fixed (terms : list string) :
  (length terms <= 5)%nat ->
  NoDup terms ->
  Forall (fun t => keep_term t = true) terms ->
  Forall (fun t => all_chars is_term_char t = true) terms ->
  extractKeyTerms (JS.join_space terms) = terms.
Proof.
  intros Hlen Hnd Hkeep Hchars.
  destruct (decide (terms = [])) as [->|Hne]; [vm_compute; reflexivity|].
  assert (Hgood : Forall (fun t => t <> EmptyString
                                   /\ all_chars is_term_char t = true) terms).
  { apply Forall_forall. intros t Ht.
    rewrite Forall_forall in Hkeep, Hchars.
    split; [|now apply Hchars].
    intros ->. specialize (Hkeep _ Ht). discriminate Hkeep. }
  rewrite extractKeyTerms_unfold. unfold tokens.
  rewrite normalise_fixed by now apply join_space_chars.
  rewrite split_join by assumption.
  rewrite filter_all by assumption.
  rewrite first_seen_distinct
    by (assumption || (intros; apply not_elem_of_nil)).
  now apply firstn_all2.
Qed.

(** X1. The key terms of a message are stable under the search the
    handler sends: joined with spaces (the message of the second strategy)
    and extracted again, they come back unchanged. *)
Theorem extractKeyTerms_join_fixed (message : string) :
  extractKeyTerms (JS.join_space (extractKeyTerms message))
  = extractKeyTerms message.
Proof.
  apply key_terms_fixed.
  - rewrite extractKeyTerms_unfold, length_firstn. lia.
  - rewrite extractKeyTerms_unfold.
    eapply sublist_NoDup; [apply first_seen_NoDup|apply sublist_take].
  - apply Forall_forall. intros t Ht.
    now apply extractKeyTerms_candidate in Ht.
  - apply Forall_forall. intros t Ht.
    apply extractKeyTerms_candidate in Ht as [Htok _].
    pose proof (tokens_chars message) as Hall.
    rewrite Forall_forall in Hall. now apply Hall.
Qed.

(** X2. No qualifying word is lost unless the limit of five is reached:
    a word of the message that is longer than 2 characters and no stop
    word is among the key terms, or the key terms are five. *)
Theorem extractKeyTerms_complete (message term : string) :
  term ∈ tokens message ->
  keep_term term = true ->
  term ∈ extractKeyTerms message \/ length (extractKeyTerms message) = 5%nat.
Proof.
  intros Htok Hkeep. rewrite extractKeyTerms_unfold.
  set (distinct := first_seen [] (List.filter keep_term (tokens message))).
  assert (Hin : term ∈ distinct).
  { destruct (first_seen_cover [] (List.filter keep_term (tokens message)) term)
      as [Hnil|Hin]; [|now apply elem_of_nil in Hnil|exact Hin].
    apply list_elem_of_In, filter_In. split; [now apply list_elem_of_In|exact Hkeep]. }
  destruct (Nat.le_gt_cases (length distinct) 5) as [Hshort|Hlong].
  - left. now rewrite firstn_all2.
  - right. rewrite length_firstn. lia.
Qed.

(** ** The client cache and the outcome of a query *)

Lemma getClient_failure (config : MultiTeamConfig) (team : string)
    (requested : option string) (w w' : World) (e : Error) :
  getClient config team requested w = (inl e, w') ->
  isConfigurationError e = true /\ w' = w.
Proof.
  unfold getClient, lift, mbind, M_bind, getTeamConfig.
  destruct (teams config !! team) as [teamConfig|];
    [|intros [= <- <-]; split; reflexivity].
  cbv beta iota zeta.
  destruct (negb _); [intros [= <- <-]; split; reflexivity|].
  destruct (environments teamConfig !! _);
    [|intros [= <- <-]; split; reflexivity].
  destruct (clients w !! _); discriminate.
Qed.

Lemma truthy_some (o : option string) :
  JS.truthy o = true -> exists s, o = Some s /\ s <> EmptyString.
Proof.
  destruct o as [s|]; [|discriminate]. simpl. intros H.
  exists s. split; [reflexivity|].
  intros ->. discriminate H.
Qed.

Lemma getClient_success (config : MultiTeamConfig) (team : string)
    (requested : option string) (w w' : World) (key : string) :
  getClient config team requested w = (inr key, w') ->
  exists teamConfig env envConfig,
    teams config !! team = Some teamConfig
    /\ JS.or_else requested (defaultEnvironment teamConfig) = Some env
    /\ env <> EmptyString
    /\ environments teamConfig !! env = Some envConfig
    /\ key = getClientKey team env
    /\ calls w' = calls w
    /\ clients w' = match clients w !! key with
                    | Some _ => clients w
                    | None => <[key := createClient envConfig]> (clients w)
                    end.
Proof.
  unfold getClient, lift, mbind, M_bind, getTeamConfig.
  destruct (teams config !! team) as [teamConfig|]; [|discriminate].
  cbv beta iota zeta.
  destruct (JS.truthy (JS.or_else requested (defaultEnvironment teamConfig)))
    eqn:Htruthy; [|discriminate].
  apply truthy_some in Htruthy as (env & Henv & Hne).
  rewrite Henv. cbn [negb]. change (default EmptyString (Some env)) with env.
  destruct (environments teamConfig !! env) as [envConfig|] eqn:Hlookup;
    [|discriminate].
  intros Hrun. exists teamConfig, env, envConfig.
  destruct (clients w !! getClientKey team env) eqn:Hcache;
    injection Hrun as <- <-; cbn [clients calls]; rewrite ?Hcache; tauto.
Qed.

(** X3. A successful [getClient] sends nothing to the store, leaves every
    other cached client and an already cached client of its key untouched,
    resolves an omitted environment to the tenant's default, and is
    idempotent: asked again it returns the same client and changes
    nothing. *)
Theorem getClient_reuses_client (config : MultiTeamConfig) (team : string)
    (requested : option string) (w w' : World) (key : string) :
  getClient config team requested w = (inr key, w') ->
  calls w' = calls w
  /\ is_Some (clients w' !! key)
  /\ (forall client, clients w !! key = Some client ->
        clients w' !! key = Some client)
  /\ (forall other, other <> key -> clients w' !! other = clients w !! other)
  /\ (JS.truthy requested = false ->
      exists teamConfig env,
        teams config !! team = Some teamConfig
        /\ defaultEnvironment teamConfig = Some env
        /\ key = getClientKey team env)
  /\ getClient config team requested w' = (inr key, w').
Proof.
  intros Hrun.
  destruct (getClient_success _ _ _ _ _ _ Hrun)
    as (teamConfig & env & envConfig & Hteam & Henv & Hne & Hlookup & Hkey
        & Hcalls & Hclients).
  assert (Hcached : is_Some (clients w' !! key)).
  { rewrite Hclients. destruct (clients w !! key) eqn:Hold.
    - rewrite Hold. eauto.
    - rewrite lookup_insert_eq. eauto. }
  split; [exact Hcalls|]. split; [exact Hcached|].
  split.
  { intros client Hold. rewrite Hclients, Hold. exact Hold. }
  split.
  { intros other Hother. rewrite Hclients.
    destruct (clients w !! key); [reflexivity|].
    now rewrite lookup_insert_ne by congruence. }
  split.
  { intros Hfalsy. exists teamConfig, env.
    unfold JS.or_else in Henv. rewrite Hfalsy in Henv. tauto. }
  unfold getClient, lift, mbind, M_bind, getTeamConfig.
  rewrite Hteam. cbv beta iota zeta. rewrite Henv.
  assert (Htruthy : JS.truthy (Some env) = true).
  { simpl. destruct (String.eqb_spec env EmptyString); [contradiction|reflexivity]. }
  rewrite Htruthy. cbn [negb]. change (default EmptyString (Some env)) with env.
  rewrite Hlookup, <- Hkey.
  destruct Hcached as [client Hclient]. now rewrite Hclient.
Qed.

Lemma append_colon_inv (t1 t2 e1 e2 : string) :
  all_chars (fun c => negb (Ascii.eqb c ":")) t1 = true ->
  all_chars (fun c => negb (Ascii.eqb c ":")) t2 = true ->
  String.append t1 (String ":" e1) = String.append t2 (String ":" e2) ->
  t1 = t2 /\ e1 = e2.
Proof.
  revert t2. induction t1 as [|c t1 IH]; intros [|d t2] H1 H2 Heq.
  - rewrite !append_nil_l in Heq. injection Heq as ->. tauto.
  - rewrite append_nil_l, append_cons in Heq. injection Heq as <- _.
    cbn [all_chars] in H2. discriminate H2.
  - rewrite append_nil_l, append_cons in Heq. injection Heq as -> _.
    cbn [all_chars] in H1. discriminate H1.
  - rewrite !append_cons in Heq. injection Heq as -> Heq.
    cbn [all_chars] in H1, H2.
    apply andb_true_iff in H1 as [_ H1]. apply andb_true_iff in H2 as [_ H2].
    destruct (IH t2 H1 H2 Heq) as [-> ->]. tauto.
Qed.

(** X4. Cache keys tell tenants and environments apart as long as tenant
    ids hold no colon: two pairs with the same key are the same pair. With a
    colon they need not be: the environment "c" of the tenant "a:b" and the
    environment "b:c" of the tenant "a" share the key "a:b:c". *)
Theorem getClientKey_injective (team1 team2 env1 env2 : string) :
  all_chars (fun c => negb (Ascii.eqb c ":")) team1 = true ->
  all_chars (fun c => negb (Ascii.eqb c ":")) team2 = true ->
  getClientKey team1 env1 = getClientKey team2 env2 ->
  (team1 = team2 /\ env1 = env2)
  /\ getClientKey "a:b" "c" = getClientKey "a" "b:c".
Proof.
  intros H1 H2 Heq. split; [|reflexivity].
  unfold getClientKey in Heq.
  now apply (append_colon_inv team1 team2 env1 env2).
Qed.

(** The shape all one-query operations of the service share: what comes
    back, and what was sent, in each of their outcomes. *)
Lemma query_outcome {A} (config : MultiTeamConfig) (store : Store)
    (team : string) (requested : option string)
    (request : TeamConfig -> SearchParams) (result : SearchResponse -> A)
    (action : string) (w : World) :
  match (teamConfig ← lift (getTeamConfig config team);
         client ← getClient config team requested;
         try_catch
           (response ← client_search store client (request teamConfig);
            mret (result response))
           (fun error => throw (Failed action error))) w with
  | (inr a, w') =>
      exists teamConfig key response w1,
        teams config !! team = Some teamConfig
        /\ getClient config team requested w = (inr key, w1)
        /\ clients w' = clients w1
        /\ calls w' = calls w ++ [SearchCall key (request teamConfig)]
        /\ es_search store key (request teamConfig) = inr response
        /\ a = result response
  | (inl e, w') =>
      (isConfigurationError e = true /\ w' = w)
      \/ exists teamConfig key msg w1,
           teams config !! team = Some teamConfig
           /\ getClient config team requested w = (inr key, w1)
           /\ es_search store key (request teamConfig) = inl msg
           /\ e = Failed action (StoreFailure msg)
           /\ calls w' = calls w ++ [SearchCall key (request teamConfig)]
  end.
Proof.
  unfold lift, mbind at 1, M_bind at 1, getTeamConfig.
  destruct (teams config !! team) as [teamConfig|] eqn:Hteam;
    [|left; split; reflexivity].
  unfold mbind at 1, M_bind at 1.
  destruct (getClient config team requested w) as [[e|key] w1] eqn:Hclient.
  - left. now apply getClient_failure in Hclient.
  - pose proof (getClient_success _ _ _ _ _ _ Hclient)
      as (tc & env & envConfig & _ & _ & _ & _ & _ & Hcalls & _).
    unfold try_catch, mbind, M_bind, client_search, throw, mret, M_ret.
    destruct (es_search store key (request teamConfig)) as [msg|response] eqn:Hes.
    + right. exists teamConfig, key, msg, w1. cbn [calls]. rewrite Hcalls.
      repeat split; first [assumption|reflexivity].
    + exists teamConfig, key, response, w1. cbn [calls clients]. rewrite Hcalls.
      repeat split; first [assumption|reflexivity].
Qed.

(** X5. Every exception search ends in one of three ways. It succeeds after
    exactly one query, on the tenant's exception patterns, and returns one
    record per hit, in the order and under the ids of the hits. It fails
    with a configuration error before anything is sent. Or it fails after
    exactly one query with the store's error wrapped as "Failed to search
    exceptions". *)
Theorem searchExceptions_outcome (config : MultiTeamConfig) (store : Store)
    (now : Z) (team : string) (filters : SearchFilters) (w : World) :
  match searchExceptions config store now team filters w with
  | (inr results, w') =>
      exists teamConfig key response,
        teams config !! team = Some teamConfig
        /\ calls w'
           = calls w ++ [SearchCall key (searchExceptions_params now teamConfig filters)]
        /\ sp_index (searchExceptions_params now teamConfig filters)
           = exceptions (indexPatterns teamConfig)
        /\ es_search store key (searchExceptions_params now teamConfig filters)
           = inr response
        /\ length results = length (hits response)
        /\ List.map id results = List.map hit_id (hits response)
        /\ List.map index results = List.map hit_index (hits response)
  | (inl e, w') =>
      (isConfigurationError e = true /\ w' = w)
      \/ exists msg call,
           e = Failed "search exceptions" (StoreFailure msg)
           /\ calls w' = calls w ++ [call]
  end.
Proof.
  pose proof (query_outcome config store team (sf_environment filters)
                (fun teamConfig => searchExceptions_params now teamConfig filters)
                (fun response => List.map exception_of_hit (hits response))
                "search exceptions" w) as H.
  change (searchExceptions config store now team filters w) with
    ((teamConfig ← lift (getTeamConfig config team);
      client ← getClient config team (sf_environment filters);
      try_catch
        (response ← client_search store client
                      (searchExceptions_params now teamConfig filters);
         mret (List.map exception_of_hit (hits response)))
        (fun error => throw (Failed "search exceptions" error))) w).
  destruct ((teamConfig ← lift (getTeamConfig config team);
      client ← getClient config team (sf_environment filters);
      try_catch
        (response ← client_search store client
                      (searchExceptions_params now teamConfig filters);
         mret (List.map exception_of_hit (hits response)))
        (fun error => throw (Failed "search exceptions" error))) w)
    as [[e|results] w'].
  - destruct H as [H|(teamConfig & key & msg & w1 & _ & _ & _ & He & Hcalls)];
      [now left|right; eauto].
  - destruct H as (teamConfig & key & response & w1 & Hteam & _ & _ & Hcalls
                   & Hes & ->).
    exists teamConfig, key, response.
    rewrite length_map, !List.map_map. repeat split; assumption || reflexivity.
Qed.

(** ** What the handlers send and report *)


Lemma getClient_success_any (config : MultiTeamConfig) (team : string)
    (requested : option string) (w w' w2 : World) (key : string) :
  getClient config team requested w = (inr key, w') ->
  exists w2', getClient config team requested w2 = (inr key, w2')
              /\ calls w2' = calls w2.
Proof.
  unfold getClient, lift, mbind, M_bind, getTeamConfig.
  destruct (teams config !! team) as [teamConfig|]; [|discriminate].
  cbv beta iota zeta.
  destruct (negb _); [discriminate|].
  destruct (environments teamConfig !! _); [|discriminate].
  intros Hrun.
  assert (Hkey : key = getClientKey team
            (default EmptyString
               (JS.or_else requested (defaultEnvironment teamConfig)))).
  { destruct (clients w !! _); injection Hrun as <- _; reflexivity. }
  rewrite <- Hkey.
  destruct (clients w2 !! key); eexists; split; reflexivity.
Qed.





Lemma respond_success {A} (body : M A) (payload : A) (trace : list StoreCall) :
  respond body = (ToolSuccess payload, trace) ->
  exists w, body new_service = (inr payload, w) /\ calls w = trace.
Proof.
  unfold respond. destruct (body new_service) as [[e|a] w]; [discriminate|].
  intros [= -> <-]. now exists w.
Qed.

(** X7. A log search that succeeds has sent exactly one query: through the
    client of the environment the response names (the requested one, or the
    tenant's default), on the tenant's application patterns followed by its
    log patterns, for at most [maxSearchResults] (50 when unset) hits; the
    response counts and lists the hits of the answer in their order. *)
Theorem searchLogsHandler_success (config : MultiTeamConfig) (store : Store)
    (now : Z) (team : string) (env msg svc : option string)
    (range : option TimeRange) (payload : SearchPayload)
    (trace : list StoreCall) :
  searchLogsHandler config store now team env msg svc range
  = (ToolSuccess payload, trace) ->
  exists teamConfig resolved request response,
    teams config !! team = Some teamConfig
    /\ out_environment payload = Some resolved
    /\ is_Some (environments teamConfig !! resolved)
    /\ trace = [SearchCall (getClientKey team resolved) request]
    /\ sp_index request
       = applications (indexPatterns teamConfig)
         ++ default [] (logs (indexPatterns teamConfig))
    /\ sp_size request = JS.num_or (maxSearchResults teamConfig) 50
    /\ es_search store (getClientKey team resolved) request = inr response
    /\ out_totalResults payload = Z.of_nat (length (hits response))
    /\ List.map id (out_results payload) = List.map hit_id (hits response).
Proof.
  intros Hrun. apply respond_success in Hrun as (w & Hrun & <-).
  revert Hrun. unfold searchLogsBody, check_allowed, lift.
  unfold mbind at 1, M_bind at 1, getTeamConfig.
  destruct (teams config !! team) as [teamConfig|] eqn:Hteam; [|discriminate].
  unfold mbind at 1, M_bind at 1.
  destruct (operation_blocked teamConfig "search_logs"); [discriminate|].
  unfold mret at 1, M_ret at 1. cbv beta iota.
  unfold mbind at 1, M_bind at 1.
  set (filters := {| sf_environment := env; sf_timeRange := range;
                     sf_timeframe := None; sf_severity := None;
                     sf_service := svc; sf_message := msg;
                     sf_limit := None; sf_sortByFrequency := None |}).
  pose proof (query_outcome config store team env
                (fun teamConfig => searchLogs_params now teamConfig filters)
                (fun response => List.map log_of_hit (hits response))
                "search logs" new_service) as H.
  change (searchLogs config store now team filters new_service) with
    ((teamConfig ← lift (getTeamConfig config team);
      client ← getClient config team env;
      try_catch
        (response ← client_search store client
                      (searchLogs_params now teamConfig filters);
         mret (List.map log_of_hit (hits response)))
        (fun error => throw (Failed "search logs" error))) new_service).
  destruct ((teamConfig ← lift (getTeamConfig config team);
      client ← getClient config team env;
      try_catch
        (response ← client_search store client
                      (searchLogs_params now teamConfig filters);
         mret (List.map log_of_hit (hits response)))
        (fun error => throw (Failed "search logs" error))) new_service)
    as [[e|results] w']; [discriminate|].
  intros [= <- <-].
  destruct H as (tc & key & response & w1 & Hteam' & Hclient & _ & Hcalls
                 & Hes & ->).
  assert (tc = teamConfig) as -> by congruence.
  destruct (getClient_success _ _ _ _ _ _ Hclient)
    as (tc & resolved & envConfig & Hteam'' & Henv & _ & Hlookup & -> & _).
  assert (tc = teamConfig) as -> by congruence.
  exists teamConfig, resolved, (searchLogs_params now teamConfig filters), response.
  cbn [out_environment out_totalResults out_results].
  rewrite length_map, List.map_map.
  repeat split; first [assumption|reflexivity|eauto].
Qed.

(** X8. On a known tenant the connection test always answers with a
    success response naming the requested environment (or the tenant's
    default). It sends at most one ping, and it reports "connected" exactly
    when it sent one and the cluster answered [true]: a missing
    environment, an error of the ping and an answer other than [true] all
    read "not connected". *)
Theorem testConnectionHandler_outcome (config : MultiTeamConfig) (store : Store)
    (team : string) (env : option string) (teamConfig : TeamConfig) :
  teams config !! team = Some teamConfig ->
  exists connected trace,
    testConnectionHandler config store team env
    = (ToolSuccess {| cp_teamId := team;
                      cp_environment := JS.or_else env (defaultEnvironment teamConfig);
                      cp_connected := connected |}, trace)
    /\ (length trace <= 1)%nat
    /\ (connected = true
        <-> exists key, trace = [PingCall key] /\ es_ping store key = inr true).
Proof.
  intros Hteam.
  unfold testConnectionHandler, respond, testConnectionBody, testConnection,
    try_catch, lift.
  unfold mbind at 1, M_bind at 1. rewrite (getTeamConfig_known _ _ _ Hteam).
  unfold mbind, M_bind, mret, M_ret.
  destruct (getClient config team env new_service) as [[e|key] w] eqn:Hclient.
  - apply getClient_failure in Hclient as [_ ->].
    exists false, []. split; [reflexivity|]. split; [simpl; lia|].
    split; [discriminate|]. intros (key & Hkey & _). discriminate Hkey.
  - apply getClient_success in Hclient
      as (tc & resolved & envConfig & _ & _ & _ & _ & _ & Hcalls & _).
    unfold client_ping.
    destruct (es_ping store key) as [msg|answer] eqn:Hping.
    + exists false, [PingCall key]. cbn [calls]. rewrite Hcalls.
      split; [reflexivity|]. split; [simpl; lia|].
      split; [discriminate|]. intros (key' & [= <-] & Hanswer). congruence.
    + exists answer, [PingCall key]. cbn [calls]. rewrite Hcalls.
      split; [reflexivity|]. split; [simpl; lia|].
      split.
      * intros ->. exists key. split; [reflexivity|exact Hping].
      * intros (key' & [= <-] & Hanswer). congruence.
Qed.

Lemma analyzeExceptions_shape (config : MultiTeamConfig) (store : Store)
    (now : Z) (team : string) (filters : SearchFilters) (w : World) :
  match analyzeExceptions config store now team filters w with
  | (inr _, w') =>
      exists teamConfig key w1,
        teams config !! team = Some teamConfig
        /\ getClient config team (sf_environment filters) w = (inr key, w1)
        /\ clients w' = clients w1
        /\ calls w'
           = calls w ++ [SearchCall key (analyzeExceptions_params now teamConfig filters)]
  | (inl _, _) => True
  end.
Proof.
  pose proof (query_outcome config store team (sf_environment filters)
                (fun teamConfig => analyzeExceptions_params now teamConfig filters)
                (fun response =>
                   let aggs := aggregations response in
                   {| totalCount := agg_total_count aggs;
                      uniqueExceptions := agg_unique_exceptions aggs;
                      topExceptions :=
                        List.map (fun bucket =>
                          {| te_message := teb_key bucket;
                             te_count := teb_doc_count bucket;
                             te_firstSeen := teb_first_seen bucket;
                             te_lastSeen := teb_last_seen bucket;
                             te_affectedServices := teb_affected_services bucket |})
                          (agg_top_exceptions aggs);
                      timeDistribution :=
                        List.map (fun bucket => (key_as_string bucket, doc_count bucket))
                          (agg_time_distribution aggs) |})
                "analyze exceptions" w) as H.
  unfold analyzeExceptions.
  match goal with
  | H : match ?m w with _ => _ end |- match ?m' w with _ => _ end =>
      change (m' w) with (m w); destruct (m w) as [[e|a] w']
  end; [exact I|].
  destruct H as (tc & key & response & w1 & Hteam & Hclient & Hclients & Hcalls & _).
  eauto 10.
Qed.

Lemma getServiceExceptionTrends_shape (config : MultiTeamConfig) (store : Store)
    (now : Z) (team : string) (timeframe : string) (filters : SearchFilters)
    (w : World) :
  match getServiceExceptionTrends config store now team (Some timeframe) filters w with
  | (inr trends, w') =>
      exists teamConfig key response w1,
        teams config !! team = Some teamConfig
        /\ getClient config team (sf_environment filters) w = (inr key, w1)
        /\ calls w'
           = calls w ++ [SearchCall key
                           (getServiceExceptionTrends_params now teamConfig timeframe)]
        /\ es_search store key
             (getServiceExceptionTrends_params now teamConfig timeframe)
           = inr response
        /\ trends = match agg_services (aggregations response) with
                    | Some buckets => List.map service_trend buckets
                    | None => []
                    end
  | (inl _, _) => True
  end.
Proof.
  pose proof (query_outcome config store team (sf_environment filters)
                (fun teamConfig =>
                   getServiceExceptionTrends_params now teamConfig timeframe)
                (fun response =>
                   match agg_services (aggregations response) with
                   | Some buckets => List.map service_trend buckets
                   | None => []
                   end)
                "get service exception trends" w) as H.
  unfold getServiceExceptionTrends.
  match goal with
  | H : match ?m w with _ => _ end |- match ?m' w with _ => _ end =>
      change (m' w) with (m w); destruct (m w) as [[e|a] w']
  end; [exact I|].
  destruct H as (tc & key & response & w1 & Hteam & Hclient & _ & Hcalls & Hes & ->).
  eauto 10.
Qed.

Lemma filter_includes (wanted : list string) (trends : list ServiceExceptionTrend) :
  Forall (fun trend => array_includes wanted (st_service trend) = true)
         (List.filter (fun trend => array_includes wanted (st_service trend)) trends).
Proof.
  apply Forall_forall. intros trend Hin.
  apply list_elem_of_In, filter_In in Hin. tauto.
Qed.

(** X9. A trend analysis that succeeds has sent one query per requested
    part, through one client: the aggregate analysis on the time range of
    the request (it does not read the timeframe), then the service trends
    on the timeframe (they do not read the time range). Each part of the
    response is present exactly when it was requested, and when services
    are listed only their trends are reported. *)
Theorem analyzeTrendsHandler_success (config : MultiTeamConfig) (store : Store)
    (now : Z) (team : string) (params : AnalyzeTrendsParams)
    (payload : TrendsPayload) (trace : list StoreCall) :
  analyzeTrendsHandler config store now team params
  = (ToolSuccess payload, trace) ->
  exists teamConfig key,
    teams config !! team = Some teamConfig
    /\ trace
       = (if wants_exceptions (at_analysisType params)
          then [SearchCall key
                  (analyzeExceptions_params now teamConfig
                     {| sf_environment := at_environment params;
                        sf_timeRange := at_timeRange params;
                        sf_timeframe := None; sf_severity := None;
                        sf_service := None; sf_message := None;
                        sf_limit := None; sf_sortByFrequency := None |})]
          else [])
         ++ (if wants_services (at_analysisType params)
             then [SearchCall key
                     (getServiceExceptionTrends_params now teamConfig
                        (at_timeframe params))]
             else [])
    /\ (is_Some (tp_exceptionAnalysis payload)
        <-> wants_exceptions (at_analysisType params) = true)
    /\ (is_Some (tp_serviceAnalysis payload)
        <-> wants_services (at_analysisType params) = true)
    /\ (forall wanted trends,
          at_services params = Some wanted ->
          tp_serviceAnalysis payload = Some trends ->
          Forall (fun trend => array_includes wanted (st_service trend) = true)
                 trends).
Proof.
  intros Hrun. apply respond_success in Hrun as (w & Hrun & <-).
  revert Hrun. unfold analyzeTrendsBody, check_allowed, lift.
  unfold mbind at 1, M_bind at 1, getTeamConfig.
  destruct (teams config !! team) as [teamConfig|] eqn:Hteam; [|discriminate].
  unfold mbind at 1, M_bind at 1.
  destruct (operation_blocked teamConfig "analyze_trends"); [discriminate|].
  unfold mret at 1, M_ret at 1. cbv beta iota.
  set (rangeFilters := {| sf_environment := at_environment params;
                          sf_timeRange := at_timeRange params;
                          sf_timeframe := None; sf_severity := None;
                          sf_service := None; sf_message := None;
                          sf_limit := None; sf_sortByFrequency := None |}).
  set (frameFilters := {| sf_environment := at_environment params;
                          sf_timeRange := None; sf_timeframe := None;
                          sf_severity := None; sf_service := None;
                          sf_message := None; sf_limit := None;
                          sf_sortByFrequency := None |}).
  pose proof (analyzeExceptions_shape config store now team rangeFilters
                new_service) as Hfirst.
  destruct (at_analysisType params) eqn:Htype;
    cbn [wants_exceptions wants_services];
    unfold mbind, M_bind, mret, M_ret.
  - (* exceptions only *)
    destruct (analyzeExceptions config store now team rangeFilters new_service)
      as [[e|analysis] w1]; [discriminate|].
    intros [= <- <-].
    destruct Hfirst as (tc & key & wc & Hteam' & _ & _ & Hcalls).
    assert (tc = teamConfig) as -> by congruence.
    exists teamConfig, key. cbn [tp_exceptionAnalysis tp_serviceAnalysis].
    split; [reflexivity|]. split; [exact Hcalls|].
    split; [split; eauto|]. split; [split; [intros [? [=]]|discriminate]|].
    intros wanted trends _ [=].
  - (* services only *)
    pose proof (getServiceExceptionTrends_shape config store now team
                  (at_timeframe params) frameFilters new_service) as Hsecond.
    destruct (getServiceExceptionTrends config store now team
                (Some (at_timeframe params)) frameFilters new_service)
      as [[e|trends] w1]; [discriminate|].
    intros [= <- <-].
    destruct Hsecond as (tc & key & response & wc & Hteam' & _ & Hcalls & _).
    assert (tc = teamConfig) as -> by congruence.
    exists teamConfig, key. cbn [tp_exceptionAnalysis tp_serviceAnalysis].
    split; [reflexivity|]. split; [exact Hcalls|].
    split; [split; [intros [? [=]]|discriminate]|]. split; [split; eauto|].
    intros wanted reported Hwanted [= <-]. rewrite Hwanted.
    apply filter_includes.
  - (* both *)
    destruct (analyzeExceptions config store now team rangeFilters new_service)
      as [[e|analysis] w1]; [discriminate|].
    destruct Hfirst as (tc & key & wc & Hteam' & Hclient & _ & Hcalls1).
    assert (tc = teamConfig) as -> by congruence.
    pose proof (getServiceExceptionTrends_shape config store now team
                  (at_timeframe params) frameFilters w1) as Hsecond.
    destruct (getServiceExceptionTrends config store now team
                (Some (at_timeframe params)) frameFilters w1)
      as [[e|trends] w2]; [discriminate|].
    intros [= <- <-].
    destruct Hsecond as (tc & key' & response & wc' & Hteam'' & Hclient' & Hcalls2 & _).
    assert (tc = teamConfig) as -> by congruence.
    destruct (getClient_success_any _ _ _ _ _ w1 _ Hclient) as (w1' & Hagain & _).
    cbn [sf_environment rangeFilters frameFilters] in Hagain, Hclient'.
    assert (key' = key) as -> by congruence.
    exists teamConfig, key. cbn [tp_exceptionAnalysis tp_serviceAnalysis].
    split; [reflexivity|].
    split; [rewrite Hcalls2, Hcalls1; reflexivity|].
    split; [split; eauto|]. split; [split; eauto|].
    intros wanted reported Hwanted [= <-]. rewrite Hwanted.
    apply filter_includes.
Qed.

(** X10. When the store answers the query of a specific-exception
    analysis, the handler has sent exactly that one query, for at most 100
    hits. Without hits the analysis fails, and the error is the "no
    exceptions found" error wrapped like a failure of the search. With hits
    it succeeds: the causes and solutions depend on the message asked for
    only, the total is the total of the answer, the service is never
    empty, and with fewer than two histogram buckets the trend is
    "stable". *)
Theorem analyzeExceptionHandler_outcome (config : MultiTeamConfig)
    (store : Store) (now : Z) (team : string) (env : option string)
    (exceptionMessage timeframe : string) (teamConfig : TeamConfig)
    (key : string) (w1 : World) (response : SearchResponse) :
  teams config !! team = Some teamConfig ->
  operation_blocked teamConfig "analyze_exception" = false ->
  getClient config team env new_service = (inr key, w1) ->
  es_search store key
    (analyzeSpecificException_params now teamConfig exceptionMessage timeframe)
  = inr response ->
  snd (analyzeExceptionHandler config store now team env exceptionMessage timeframe)
  = [SearchCall key
       (analyzeSpecificException_params now teamConfig exceptionMessage timeframe)]
  /\ sp_size (analyzeSpecificException_params now teamConfig exceptionMessage timeframe)
     = 100
  /\ match hits response with
     | [] =>
         fst (analyzeExceptionHandler config store now team env
                exceptionMessage timeframe)
         = ToolError (Failed "analyze specific exception"
                        (NoExceptionsFound exceptionMessage))
     | _ :: _ =>
         exists analysis,
           fst (analyzeExceptionHandler config store now team env
                  exceptionMessage timeframe)
           = ToolSuccess analysis
           /\ possibleCauses analysis = generatePossibleCauses exceptionMessage
           /\ suggestedSolutions analysis
              = generateSuggestedSolutions exceptionMessage
           /\ frequency_total analysis = totalHits (hits_total response)
           /\ affectedServices analysis
              = agg_affected_services (aggregations response)
           /\ JS.truthy (exc_service analysis) = true
           /\ ((length (agg_time_distribution (aggregations response)) < 2)%nat ->
               frequency_trend analysis = "stable")
     end.
Proof.
  intros Hteam Hopen Hclient Hes.
  pose proof (getClient_success _ _ _ _ _ _ Hclient)
    as (tc & resolved & envConfig & _ & _ & _ & _ & _ & Hcalls & _).
  unfold analyzeExceptionHandler, respond, analyzeExceptionBody, check_allowed,
    analyzeSpecificException, try_catch, client_search, lift, throw,
    mbind, M_bind, mret, M_ret.
  rewrite (getTeamConfig_known _ _ _ Hteam), Hopen.
  cbv beta iota zeta. cbn [sf_environment default].
  change (Datatypes.id timeframe) with timeframe.
  rewrite Hclient, Hes. cbv beta iota. rewrite Hcalls.
  destruct (hits response) as [|latest others]; cbn [fst snd calls].
  - repeat split; reflexivity.
  - split; [reflexivity|]. split; [reflexivity|].
    eexists. split; [reflexivity|].
    cbn [possibleCauses suggestedSolutions frequency_total affectedServices
         exc_service frequency_trend].
    repeat split.
    + unfold JS.or_else. destruct (JS.truthy (src_service_name _)) eqn:E;
        [exact E|reflexivity].
    + intros Hshort.
      destruct (1 <? Z.of_nat (length (agg_time_distribution (aggregations response))))
        eqn:Hlong; [|reflexivity].
      apply Z.ltb_lt in Hlong. lia.
Qed.

Lemma distinct_ids_fresh_prefix (l l2 : list ElasticsearchSearchResult)
    (seen : list string) :
  NoDup (List.map id l) ->
  (forall x, x ∈ l -> id x ∉ seen) ->
  distinct_ids seen (l ++ l2)
  = l ++ distinct_ids (seen ++ List.map id l) l2.
Proof.
  revert seen. induction l as [|x l IH]; intros seen Hnd Hfresh.
  - simpl. now rewrite app_nil_r.
  - cbn [List.map] in Hnd. apply NoDup_cons in Hnd as [Hx Hnd].
    cbn [app distinct_ids].
    rewrite bool_decide_eq_false_2 by (apply Hfresh; now left).
    rewrite IH.
    + cbn [List.map]. rewrite <- app_assoc. reflexivity.
    + exact Hnd.
    + intros y Hy Hin. apply elem_of_app in Hin as [Hin|Hin].
      * apply (Hfresh y); [now right|exact Hin].
      * apply list_elem_of_singleton in Hin. apply Hx. rewrite <- Hin.
        apply list_elem_of_In, in_map, list_elem_of_In, Hy.
Qed.

(** X11. The records of the first strategy rank first: when the first
    strategy succeeds with records of distinct ids, the merged output is
    these records in their order, followed by records of the later
    strategies whose ids the first one did not return, cut to the
    limit. *)
Theorem first_strategy_ranks_first
    (first : list ElasticsearchSearchResult)
    (later : list (Settled (list ElasticsearchSearchResult))) (limit : Z) :
  0 <= limit ->
  NoDup (List.map id first) ->
  exists others,
    mergeResults (Fulfilled first :: later) limit
    = firstn (Z.to_nat limit) (first ++ others)
    /\ Forall (fun r => id r ∉ List.map id first) others
    /\ Forall (fun r => r ∈ pool later) others.
Proof.
  intros Hlimit Hnd.
  exists (distinct_ids (List.map id first) (pool later)).
  split; [|split].
  - unfold mergeResults. rewrite combineResults_distinct.
    rewrite slice_prefix by assumption. f_equal.
    change (pool (Fulfilled first :: later)) with (first ++ pool later).
    rewrite distinct_ids_fresh_prefix; [reflexivity|exact Hnd|].
    intros x _. apply not_elem_of_nil.
  - apply Forall_forall. intros r Hr.
    now apply distinct_ids_elem in Hr as [Hfresh _].
  - apply Forall_forall. intros r Hr.
    apply distinct_ids_elem in Hr as [_ Hfound].
    unfold first_with_id in Hfound. apply find_some in Hfound as [Hin _].
    now apply list_elem_of_In.
Qed.

(** X12. A request for one of the four gated operations that the tenant's
    list does not name is denied with the "operation not allowed" error of
    that operation, and nothing is sent to the store. *)
Theorem gated_request_denied (config : MultiTeamConfig) (store : Store)
    (now : Z) (team : string) (request : Request) (teamConfig : TeamConfig)
    (allowed : list string) :
  teams config !! team = Some teamConfig ->
  allowedOperations teamConfig = Some allowed ->
  array_includes allowed (operation_name request) = false ->
  (forall env, request <> TestConnectionRequest env) ->
  handle config store now team request
  = (Some (OperationNotAllowed (operation_name request) team), []).
Proof.
  intros Hteam Hlist Hmissing Hgated.
  assert (Hblocked : operation_blocked teamConfig (operation_name request) = true).
  { unfold operation_blocked. now rewrite Hlist, Hmissing. }
  pose proof (blocked_operation_denied config store now team request teamConfig
                Hteam Hblocked) as H.
  destruct request; try exact H. now destruct (Hgated env).
Qed.

(** X13. Conversely a handler answers "operation not allowed" only when
    the tenant has a list and the list lacks the name of the operation; a
    tenant without a list is never denied anything. *)
Theorem denial_means_listed_out (config : MultiTeamConfig) (store : Store)
    (now : Z) (team : string) (request : Request) (e : Error) :
  fst (handle config store now team request) = Some e ->
  isNotPermittedError e = true ->
  exists teamConfig allowed,
    teams config !! team = Some teamConfig
    /\ allowedOperations teamConfig = Some allowed
    /\ array_includes allowed (operation_name request) = false.
Proof. apply denial_only_when_blocked. Qed.

(** ** Trend thresholds in whole numbers *)

Lemma change_above (first second : Z) (bound : Z) :
  0 < first ->
  (inject_Z bound < spec_percentageChange first second)%Q
  <-> (100 + bound) * first < 100 * second.
Proof.
  intros Hpos. unfold spec_percentageChange.
  rewrite (proj2 (Z.ltb_lt 0 first) Hpos).
  destruct first as [|p|p]; try lia.
  unfold Qlt, Qdiv, Qmult, Qminus, Qplus, Qopp, Qinv, inject_Z. cbn.
  lia.
Qed.

Lemma change_below (first second : Z) (bound : Z) :
  0 < first ->
  (spec_percentageChange first second < inject_Z bound)%Q
  <-> 100 * second < (100 + bound) * first.
Proof.
  intros Hpos. unfold spec_percentageChange.
  rewrite (proj2 (Z.ltb_lt 0 first) Hpos).
  destruct first as [|p|p]; try lia.
  unfold Qlt, Qdiv, Qmult, Qminus, Qplus, Qopp, Qinv, inject_Z. cbn.
  lia.
Qed.

(** X14. The trend of a service in whole numbers: "increasing" exactly when
    the first half counts something and the second half counts more than
    eleven tenths of it, "decreasing" exactly when the first half counts
    something and the second half less than nine tenths of it. A service
    without exceptions in the first half is "stable" with a change of 0,
    however many the second half counts. *)
Theorem service_trend_thresholds (bucket : ServiceBucket) :
  (st_trend (service_trend bucket) = "increasing"
   <-> 0 < sb_first_half bucket
       /\ 11 * sb_first_half bucket < 10 * sb_second_half bucket)
  /\ (st_trend (service_trend bucket) = "decreasing"
      <-> 0 < sb_first_half bucket
          /\ 10 * sb_second_half bucket < 9 * sb_first_half bucket)
  /\ (sb_first_half bucket <= 0 ->
      st_trend (service_trend bucket) = "stable"
      /\ st_percentageChange (service_trend bucket) = Num.of_Z 0).
Proof.
  destruct (percentageChange_fin (sb_first_half bucket) (sb_second_half bucket))
    as (change & Hchange & Hspec).
  unfold service_trend. cbn [st_trend st_percentageChange].
  destruct (classify_fin change) as (Hinc & Hdec & _).
  destruct (Z.lt_ge_cases 0 (sb_first_half bucket)) as [Hpos|Hzero].
  - pose proof (Qlt_compat _ _ (Qeq_refl (inject_Z 10)) _ _ Hspec) as Hup.
    pose proof (Qlt_compat _ _ Hspec _ _ (Qeq_refl (inject_Z (-10)))) as Hdown.
    rewrite (change_above _ _ 10 Hpos) in Hup.
    rewrite (change_below _ _ (-10) Hpos) in Hdown.
    rewrite Hchange, Hinc, Hdec, Hup, Hdown.
    split; [|split]; [split; [intros H|intros [_ H]]; [split|]; lia..|lia].
  - assert (Hguard : percentageChange (sb_first_half bucket)
                       (sb_second_half bucket) = Num.of_Z 0).
    { unfold percentageChange.
      destruct (0 <? sb_first_half bucket) eqn:E; [|reflexivity].
      apply Z.ltb_lt in E. lia. }
    rewrite Hguard.
    split; [|split].
    + split; [discriminate|lia].
    + split; [discriminate|lia].
    + intros _. split; reflexivity.
Qed.








(** ** Causes and solutions *)

Lemma prefix_append (needle rest : string) :
  String.prefix needle (String.append needle rest) = true.
Proof.
  induction needle as [|c needle IH]; [now destruct rest|].
  rewrite append_cons. cbn [String.prefix].
  destruct (ascii_dec c c); [exact IH|contradiction].
Qed.

Lemma includes_infix (needle pre post : string) :
  includes needle (String.append pre (String.append needle post)) = true.
Proof.
  induction pre as [|c pre IH].
  - rewrite append_nil_l.
    destruct (String.append needle post) eqn:E; cbn [includes];
      rewrite <- E, prefix_append; reflexivity.
  - rewrite append_cons. cbn [includes]. rewrite IH. apply orb_true_r.
Qed.

Lemma found_in (x : string) (l : list string) :
  existsb (String.eqb x) l = true -> x ∈ l.
Proof.
  intros H. apply existsb_exists in H as (y & Hin & Heq).
  apply String.eqb_eq in Heq as <-. now apply list_elem_of_In.
Qed.

Lemma apart (l1 l2 : list string) :
  forallb (fun x => negb (existsb (String.eqb x) l2)) l1 = true ->
  forall x, x ∈ l1 -> x ∉ l2.
Proof.
  intros H x H1 H2. rewrite forallb_forall in H.
  apply list_elem_of_In in H1. specialize (H x H1).
  apply negb_true_iff in H.
  assert (existsb (String.eqb x) l2 = true) as E; [|congruence].
  apply existsb_exists. exists x. split; [now apply list_elem_of_In|].
  apply String.eqb_refl.
Qed.

Ltac by_keywords msg :=
  destruct (mentions msg "null"), (mentions msg "connection"),
    (mentions msg "network"), (mentions msg "memory"), (mentions msg "heap"),
    (mentions msg "permission"), (mentions msg "access").

(** X17. The generic causes and the generic solutions are given together,
    and exactly when none of the seven keywords occurs in the lower-cased
    message; when one occurs, no generic entry is given and the lists hold
    between 2 and 9 causes and between 3 and 14 solutions. *)
Theorem suggestions_fallback (exceptionMessage : string) :
  if any_rule_matches exceptionMessage then
    (forall cause, cause ∈ fallback_causes ->
                   cause ∉ generatePossibleCauses exceptionMessage)
    /\ (forall solution, solution ∈ fallback_solutions ->
                         solution ∉ generateSuggestedSolutions exceptionMessage)
    /\ (2 <= length (generatePossibleCauses exceptionMessage) <= 9)%nat
    /\ (3 <= length (generateSuggestedSolutions exceptionMessage) <= 14)%nat
  else
    generatePossibleCauses exceptionMessage = fallback_causes
    /\ generateSuggestedSolutions exceptionMessage = fallback_solutions.
Proof.
  unfold any_rule_matches, suggestion_rules, generatePossibleCauses,
    generateSuggestedSolutions.
  cbn [existsb fst].
  by_keywords exceptionMessage; cbn [orb app];
    first [ split; reflexivity
          | split; [apply apart; vm_compute; reflexivity|];
            split; [apply apart; vm_compute; reflexivity|];
            cbn [length]; lia ].
Qed.

(** X18. A keyword of the tables that occurs anywhere in the lower-cased
    message brings the causes and the solutions of its rule: the first
    cause and the first solution of the rule are among the results. *)
Theorem keyword_triggers_rule
    (exceptionMessage word cause solution pre post : string) :
  (word, (cause, solution)) ∈ suggestion_rules ->
  JS.toLowerCase exceptionMessage
  = String.append pre (String.append word post) ->
  cause ∈ generatePossibleCauses exceptionMessage
  /\ solution ∈ generateSuggestedSolutions exceptionMessage.
Proof.
  intros Hrule Hlower.
  assert (mentions exceptionMessage word = true) as Hword.
  { unfold mentions. rewrite Hlower. apply includes_infix. }
  unfold suggestion_rules in Hrule.
  repeat (apply elem_of_cons in Hrule as [Hrule|Hrule];
          [injection Hrule as -> -> ->;
           unfold generatePossibleCauses, generateSuggestedSolutions;
           rewrite Hword;
           by_keywords exceptionMessage; cbn [orb app];
           split; apply found_in; vm_compute; reflexivity|]).
  now apply elem_of_nil in Hrule.
Qed.

(** ** The aggregated and the context searches *)







(** X21. The client built for an environment: the API key, when one is
    configured, is the only credential used, whatever user name and
    password stand beside it; a user name and a password are used only
    together and only without an API key; otherwise the client has no
    credentials. The retries and the timeout are never 0: a configured 0
    is replaced by the default (3 retries, 30000 ms), any other configured
    value is kept. *)
Theorem createClient_spec (config : ElasticsearchEnvironmentConfig) :
  co_node (createClient config) = node config
  /\ co_maxRetries (createClient config) <> 0
  /\ co_requestTimeout (createClient config) <> 0
  /\ co_maxRetries (createClient config)
     = (if bool_decide (maxRetries config = Some 0) then 3
        else default 3 (maxRetries config))
  /\ co_requestTimeout (createClient config)
     = (if bool_decide (requestTimeout config = Some 0) then 30000
        else default 30000 (requestTimeout config))
  /\ match co_auth (createClient config) with
     | Some (ApiKeyAuth key) => apiKey config = Some key /\ key <> EmptyString
     | Some (BasicAuth user pass) =>
         JS.truthy (apiKey config) = false
         /\ username config = Some user /\ user <> EmptyString
         /\ password config = Some pass /\ pass <> EmptyString
     | None =>
         JS.truthy (apiKey config) = false
         /\ (JS.truthy (username config) = false
             \/ JS.truthy (password config) = false)
     end.
Proof.
  unfold createClient. cbn [co_node co_maxRetries co_requestTimeout co_auth].
  split; [reflexivity|].
  split.
  { unfold JS.num_or. destruct (maxRetries config) as [v|]; [|discriminate].
    destruct (v =? 0) eqn:E; [discriminate|]. now apply Z.eqb_neq in E. }
  split.
  { unfold JS.num_or. destruct (requestTimeout config) as [v|]; [|discriminate].
    destruct (v =? 0) eqn:E; [discriminate|]. now apply Z.eqb_neq in E. }
  split.
  { unfold JS.num_or. destruct (maxRetries config) as [v|]; [|reflexivity].
    destruct (Z.eqb_spec v 0) as [->|Hne]; [reflexivity|].
    rewrite bool_decide_eq_false_2 by congruence. reflexivity. }
  split.
  { unfold JS.num_or. destruct (requestTimeout config) as [v|]; [|reflexivity].
    destruct (Z.eqb_spec v 0) as [->|Hne]; [reflexivity|].
    rewrite bool_decide_eq_false_2 by congruence. reflexivity. }
  destruct (JS.truthy (apiKey config)) eqn:Hkey.
  - apply truthy_some in Hkey as (key & -> & Hne). cbn. now split.
  - destruct (JS.truthy (username config)) eqn:Huser; cbn [andb].
    + destruct (JS.truthy (password config)) eqn:Hpass.
      * apply truthy_some in Huser as (user & -> & Hu).
        apply truthy_some in Hpass as (pass & -> & Hp).
        repeat split; assumption.
      * split; [reflexivity|now right].
    + split; [reflexivity|now left].
Qed.

(** ** The configuration manager *)



Lemma configured_environment
    (envs : gmap string ElasticsearchEnvironmentConfig) :
  configuredEnvs envs <> [] ->
  exists env envConfig,
    envs !! env = Some envConfig /\ node envConfig <> EmptyString.
Proof.
  unfold configuredEnvs. intros Hne.
  destruct (List.filter _ (map_to_list envs)) as [|[env envConfig] rest] eqn:E;
    [contradiction|].
  assert (In (env, envConfig)
             (List.filter (fun entry => has_node (snd entry)) (map_to_list envs)))
    as Hin by (rewrite E; now left).
  apply filter_In in Hin as [Hin Hnode].
  exists env, envConfig. split.
  - now apply elem_of_map_to_list, list_elem_of_In.
  - cbn [snd] in Hnode. unfold has_node in Hnode.
    apply negb_true_iff, String.eqb_neq in Hnode. exact Hnode.
Qed.

(** X24. A team that passes the validation is a complete team
    configuration with at least one environment that has a node URL. If it
    names a default environment, a request that names none gets the client
    of that default, which exists and has a node URL; if it names no
    default, which the validation accepts, such a request fails with the
    "no environment" error. *)
Theorem validated_team_usable (team : string) (raw : RawTeamConfig) :
  validateTeamConfig team raw = None ->
  exists teamConfig,
    as_TeamConfig raw = Some teamConfig
    /\ (exists env envConfig,
           environments teamConfig !! env = Some envConfig
           /\ node envConfig <> EmptyString)
    /\ forall (config : MultiTeamConfig) (w : World),
         teams config !! team = Some teamConfig ->
         if JS.truthy (defaultEnvironment teamConfig) then
           exists env envConfig w',
             defaultEnvironment teamConfig = Some env
             /\ environments teamConfig !! env = Some envConfig
             /\ node envConfig <> EmptyString
             /\ getClient config team None w = (inr (getClientKey team env), w')
         else getClient config team None w = (inl (NoEnvironment team), w).
Proof.
  unfold validateTeamConfig, as_TeamConfig.
  destruct (String.eqb (raw_teamName raw) EmptyString); [discriminate|].
  destruct (raw_environments raw) as [envs|]; [|discriminate].
  destruct (configuredEnvs envs) as [|entry rest] eqn:Hconfigured;
    [discriminate|].
  cbv zeta.
  destruct (JS.truthy (raw_defaultEnvironment raw)) eqn:Hdefault.
  - apply truthy_some in Hdefault as (env & Hdef & Hne).
    rewrite Hdef. change (default EmptyString (Some env)) with env.
    destruct (envs !! env) as [envConfig|] eqn:Hlookup; [|discriminate].
    destruct (has_node envConfig) eqn:Hnode; [|discriminate].
    destruct (raw_indexPatterns raw) as [patterns|]; [|discriminate].
    destruct (raw_exceptions patterns) as [exc|]; [|discriminate].
    destruct (raw_applications patterns) as [app|]; [|discriminate].
    intros _. eexists. split; [reflexivity|].
    cbn [environments defaultEnvironment].
    split.
    { apply configured_environment. rewrite Hconfigured. discriminate. }
    intros config w Hteam.
    assert (JS.truthy (Some env) = true) as Htruthy.
    { cbn. apply negb_true_iff, String.eqb_neq, Hne. }
    rewrite Htruthy.
    unfold has_node in Hnode. apply negb_true_iff, String.eqb_neq in Hnode.
    exists env, envConfig.
    unfold getClient, lift, mbind, M_bind, getTeamConfig.
    rewrite Hteam. cbv beta iota zeta.
    cbn [environments defaultEnvironment].
    unfold JS.or_else. change (JS.truthy None) with false. cbv iota.
    rewrite Htruthy. cbn [negb].
    change (default EmptyString (Some env)) with env.
    rewrite Hlookup.
    destruct (clients w !! getClientKey team env); eexists;
      repeat split; first [assumption|reflexivity].
  - destruct (raw_indexPatterns raw) as [patterns|]; [|discriminate].
    destruct (raw_exceptions patterns) as [exc|]; [|discriminate].
    destruct (raw_applications patterns) as [app|]; [|discriminate].
    intros _. eexists. split; [reflexivity|].
    cbn [environments defaultEnvironment].
    split.
    { apply configured_environment. rewrite Hconfigured. discriminate. }
    intros config w Hteam. rewrite Hdefault.
    unfold getClient, lift, mbind, M_bind, getTeamConfig.
    rewrite Hteam. cbv beta iota zeta.
    cbn [environments defaultEnvironment].
    unfold JS.or_else. change (JS.truthy None) with false. cbv iota.
    rewrite Hdefault. reflexivity.
Qed.

(** X25. The input schema and the smart search together: for an input the
    schema accepts, the limit is between 1 and 100 (20 when none is
    given), and a smart search that answers returns at most that many
    records, no two with the same id, and reports their number as
    [totalResults]. *)
Theorem smart_search_bounded (config : MultiTeamConfig) (store : Store)
    (now : Z) (team : string) (input : SearchExceptionsInput)
    (params : SearchExceptionsParams) (payload : SearchPayload)
    (trace : list StoreCall) :
  searchExceptionsSchema input = Some params ->
  p_smartSearch params = true ->
  JS.truthy (JS.or_else (p_message params) (p_query params)) = true ->
  searchExceptionsHandler config store now team params
  = (ToolSuccess payload, trace) ->
  p_limit params = default 20 (in_limit input)
  /\ 1 <= p_limit params <= 100
  /\ out_totalResults payload = Z.of_nat (length (out_results payload))
  /\ out_totalResults payload <= p_limit params
  /\ NoDup (List.map id (out_results payload)).
Proof.
  intros Hschema Hsmart Hterm Hrun.
  assert (p_limit params = default 20 (in_limit input)
          /\ 1 <= p_limit params <= 100) as [Hlimit Hbounds].
  { unfold searchExceptionsSchema in Hschema. cbv zeta in Hschema.
    destruct (1 <=? default 20 (in_limit input)) eqn:Hlow; [|discriminate].
    destruct (default 20 (in_limit input) <=? 100) eqn:Hhigh; [|discriminate].
    cbn [andb] in Hschema.
    destruct (match in_timeframe input with
              | Some t => array_includes timeframe_enum t
              | None => true
              end); [|discriminate].
    injection Hschema as <-. cbn [p_limit].
    apply Z.leb_le in Hlow, Hhigh. lia. }
  split; [exact Hlimit|]. split; [exact Hbounds|].
  unfold searchExceptionsHandler in Hrun.
  apply respond_success in Hrun as (w & Hbody & _).
  unfold searchExceptionsBody, lift, mbind at 1, M_bind at 1, getTeamConfig in Hbody.
  destruct (teams config !! team) as [teamConfig|]; [|discriminate].
  unfold mbind at 1, M_bind at 1, check_allowed in Hbody.
  destruct (operation_blocked teamConfig "search_exceptions"); [discriminate|].
  unfold mret at 1, M_ret at 1 in Hbody.
  rewrite Hsmart, Hterm in Hbody. cbn [andb] in Hbody.
  unfold mbind at 1, M_bind at 1, smartSearch in Hbody.
  unfold mbind at 1, M_bind at 1 in Hbody.
  destruct (allSettled_total
              (searchPromises config store now team params
                 (default EmptyString (JS.or_else (p_message params) (p_query params))))
              new_service) as (outcomes & w1 & Hsettled & _).
  rewrite Hsettled in Hbody.
  unfold mret, M_ret in Hbody. injection Hbody as <- _.
  cbn [out_totalResults out_results].
  split; [reflexivity|].
  split.
  - unfold mergeResults. apply slice_prefix_length. lia.
  - unfold mergeResults. rewrite combineResults_distinct.
    rewrite slice_prefix by lia.
    rewrite <- firstn_map.
    eapply sublist_NoDup; [apply distinct_ids_NoDup|apply sublist_take].
Qed.

(** ** The further theorems at work on the sample tenants *)

Lemma extractKeyTerms_complete_witness :
  "refused" ∈ tokens "Connection refused"
  /\ keep_term "refused" = true
  /\ ("refused" ∈ extractKeyTerms "Connection refused"
      \/ length (extractKeyTerms "Connection refused") = 5%nat).
Proof.
  assert ("refused" ∈ tokens "Connection refused") as Htoken.
  { apply list_elem_of_In. vm_compute. tauto. }
  assert (keep_term "refused" = true) as Hkeep by (vm_compute; reflexivity).
  split; [exact Htoken|]. split; [exact Hkeep|].
  exact (extractKeyTerms_complete "Connection refused" "refused" Htoken Hkeep).
Defined.

Lemma getClient_reuses_client_witness :
  exists w',
    getClient sample_config "alpha" None new_service
    = (inr "alpha:production", w')
    /\ calls w' = []
    /\ getClient sample_config "alpha" None w' = (inr "alpha:production", w').
Proof.
  assert (exists w', getClient sample_config "alpha" None new_service
                     = (inr "alpha:production", w')) as (w' & Hrun).
  { eexists. vm_compute. reflexivity. }
  exists w'. split; [exact Hrun|].
  destruct (getClient_reuses_client sample_config "alpha" None new_service w'
              "alpha:production" Hrun) as (Hcalls & _ & _ & _ & _ & Hagain).
  split; [exact Hcalls|exact Hagain].
Defined.

Lemma getClientKey_injective_witness :
  getClientKey "alpha" "production" = getClientKey "alpha" "production"
  /\ getClientKey "a:b" "c" = getClientKey "a" "b:c".
Proof.
  split; [reflexivity|].
  exact (proj2 (getClientKey_injective "alpha" "alpha" "production" "production"
                  eq_refl eq_refl eq_refl)).
Defined.


Lemma searchLogsHandler_success_witness :
  exists payload trace request,
    searchLogsHandler sample_config sample_store 1714557600000 "gamma"
      None None None None
    = (ToolSuccess payload, trace)
    /\ trace = [SearchCall "gamma:production" request]
    /\ sp_index request = ["gamma-apm-*"; "gamma-logs-*"].
Proof.
  assert (exists payload trace,
            searchLogsHandler sample_config sample_store 1714557600000 "gamma"
              None None None None
            = (ToolSuccess payload, trace)) as (payload & trace & Hrun).
  { do 2 eexists. vm_compute. reflexivity. }
  destruct (searchLogsHandler_success sample_config sample_store 1714557600000
              "gamma" None None None None payload trace Hrun)
    as (teamConfig & resolved & request & response & Hteam & Henv & _ & Htrace
        & Hindex & _).
  assert (teams sample_config !! "gamma" = Some open_team) as Hgamma
    by reflexivity.
  rewrite Hgamma in Hteam. injection Hteam as <-.
  exists payload, trace, request.
  split; [exact Hrun|].
  assert (resolved = "production") as ->.
  { injection Hrun as Hpayload _. rewrite <- Hpayload in Henv.
    vm_compute in Henv. congruence. }
  split; [exact Htrace|exact Hindex].
Defined.

Lemma testConnectionHandler_outcome_witness :
  exists connected trace,
    testConnectionHandler sample_config sample_store "gamma" None
    = (ToolSuccess {| cp_teamId := "gamma";
                      cp_environment := Some "production";
                      cp_connected := connected |}, trace)
    /\ (length trace <= 1)%nat.
Proof.
  destruct (testConnectionHandler_outcome sample_config sample_store "gamma"
              None open_team eq_refl) as (connected & trace & Hrun & Hlen & _).
  exists connected, trace. split; [exact Hrun|exact Hlen].
Defined.

Lemma analyzeTrendsHandler_success_witness :
  exists payload trace,
    analyzeTrendsHandler sample_config sample_store 1714557600000 "gamma"
      {| at_environment := None; at_timeRange := None; at_timeframe := "24h";
         at_analysisType := Exceptions; at_services := None |}
    = (ToolSuccess payload, trace)
    /\ is_Some (tp_exceptionAnalysis payload)
    /\ ~ is_Some (tp_serviceAnalysis payload).
Proof.
  assert (exists payload trace,
            analyzeTrendsHandler sample_config sample_store 1714557600000 "gamma"
              {| at_environment := None; at_timeRange := None;
                 at_timeframe := "24h"; at_analysisType := Exceptions;
                 at_services := None |}
            = (ToolSuccess payload, trace)) as (payload & trace & Hrun).
  { do 2 eexists. vm_compute. reflexivity. }
  destruct (analyzeTrendsHandler_success _ _ _ _ _ payload trace Hrun)
    as (teamConfig & key & _ & _ & Hexceptions & Hservices & _).
  exists payload, trace. split; [exact Hrun|].
  split; [now apply Hexceptions|].
  intros Hsome. apply Hservices in Hsome. discriminate Hsome.
Defined.

Lemma analyzeExceptionHandler_outcome_witness :
  snd (analyzeExceptionHandler sample_config sample_store 1714557600000
         "gamma" None "boom" "24h")
  = [SearchCall "gamma:production"
       (analyzeSpecificException_params 1714557600000 open_team "boom" "24h")].
Proof.
  assert (exists w1, getClient sample_config "gamma" None new_service
                     = (inr "gamma:production", w1)) as (w1 & Hclient).
  { eexists. vm_compute. reflexivity. }
  assert (exists response,
            es_search sample_store "gamma:production"
              (analyzeSpecificException_params 1714557600000 open_team
                 "boom" "24h")
            = inr response) as (response & Hsearch).
  { eexists. reflexivity. }
  exact (proj1 (analyzeExceptionHandler_outcome sample_config sample_store
                  1714557600000 "gamma" None "boom" "24h" open_team
                  "gamma:production" w1 response eq_refl eq_refl
                  Hclient Hsearch)).
Defined.

Lemma first_strategy_ranks_first_witness :
  exists others,
    mergeResults overlapping 2
    = firstn 2 ([sample_record "1" "phrase"; sample_record "2" "phrase"]
                ++ others).
Proof.
  assert (0 <= 2) as Hlimit by lia.
  assert (NoDup (List.map id [sample_record "1" "phrase";
                              sample_record "2" "phrase"])) as Hdistinct.
  { apply (bool_decide_unpack _). vm_compute. reflexivity. }
  destruct (first_strategy_ranks_first
              [sample_record "1" "phrase"; sample_record "2" "phrase"]
              [ Rejected (Failed "search exceptions" (StoreFailure "timeout"));
                Fulfilled [sample_record "2" "terms"; sample_record "3" "terms"] ]
              2 Hlimit Hdistinct) as (others & Hmerge & _).
  exists others. exact Hmerge.
Defined.

Lemma gated_request_denied_witness :
  handle sample_config sample_store 1714557600000 "alpha"
    (SearchLogsRequest None None None None)
  = (Some (OperationNotAllowed "search_logs" "alpha"), []).
Proof.
  apply (gated_request_denied sample_config sample_store 1714557600000 "alpha"
           (SearchLogsRequest None None None None) sample_team
           ["search_exceptions"] eq_refl eq_refl eq_refl).
  intros env. discriminate.
Defined.

Lemma denial_means_listed_out_witness :
  exists teamConfig allowed,
    teams sample_config !! "alpha" = Some teamConfig
    /\ allowedOperations teamConfig = Some allowed
    /\ array_includes allowed "search_logs" = false.
Proof.
  assert (fst (handle sample_config sample_store 1714557600000 "alpha"
                 (SearchLogsRequest None None None None))
          = Some (OperationNotAllowed "search_logs" "alpha")) as Hdenied.
  { vm_compute. reflexivity. }
  exact (denial_means_listed_out sample_config sample_store 1714557600000
           "alpha" (SearchLogsRequest None None None None)
           (OperationNotAllowed "search_logs" "alpha") Hdenied eq_refl).
Defined.


Lemma keyword_triggers_rule_witness :
  "Network connectivity issues" ∈ generatePossibleCauses "Connection refused"
  /\ "Implement retry mechanisms with exponential backoff"
     ∈ generateSuggestedSolutions "Connection refused".
Proof.
  assert (("connection",
           ("Network connectivity issues",
            "Implement retry mechanisms with exponential backoff"))
          ∈ suggestion_rules) as Hrule.
  { apply list_elem_of_In. vm_compute. tauto. }
  assert (JS.toLowerCase "Connection refused"
          = String.append EmptyString (String.append "connection" " refused"))
    as Hlower by (vm_compute; reflexivity).
  exact (keyword_triggers_rule "Connection refused" "connection" _ _
           EmptyString " refused" Hrule Hlower).
Defined.


Lemma validated_team_usable_witness :
  validateTeamConfig "alpha" sample_raw_team = None
  /\ exists teamConfig, as_TeamConfig sample_raw_team = Some teamConfig.
Proof.
  assert (validateTeamConfig "alpha" sample_raw_team = None) as Hvalid
    by (vm_compute; reflexivity).
  split; [exact Hvalid|].
  destruct (validated_team_usable "alpha" sample_raw_team Hvalid)
    as (teamConfig & Hteam & _).
  exists teamConfig. exact Hteam.
Defined.

Lemma smart_search_bounded_witness :
  exists params payload trace,
    searchExceptionsSchema sample_input = Some params
    /\ searchExceptionsHandler sample_config sample_store 1714557600000
         "alpha" params
       = (ToolSuccess payload, trace)
    /\ p_limit params = 5
    /\ out_totalResults payload <= p_limit params.
Proof.
  assert (exists params, searchExceptionsSchema sample_input = Some params)
    as (params & Hschema) by (eexists; reflexivity).
  assert (p_smartSearch params = true) as Hsmart.
  { vm_compute in Hschema. injection Hschema as <-. reflexivity. }
  assert (JS.truthy (JS.or_else (p_message params) (p_query params)) = true)
    as Hterm.
  { vm_compute in Hschema. injection Hschema as <-. reflexivity. }
  assert (exists payload trace,
            searchExceptionsHandler sample_config sample_store 1714557600000
              "alpha" params
            = (ToolSuccess payload, trace)) as (payload & trace & Hrun).
  { vm_compute in Hschema. injection Hschema as <-.
    do 2 eexists. vm_compute. reflexivity. }
  destruct (smart_search_bounded sample_config sample_store 1714557600000
              "alpha" sample_input params payload trace
              Hschema Hsmart Hterm Hrun) as (Hlimit & _ & _ & Hbound & _).
  exists params, payload, trace.
  split; [exact Hschema|]. split; [exact Hrun|].
  split; [exact Hlimit|exact Hbound].
Defined.
